(** * wollama: ranking, filtering and pagination of the model catalog

    A shallow embedding of [script.js]: the scoring heuristic
    [scoreModelForHardware], the render pass [filterAndRender] with its
    show-more click handler, and the part of [init] that decides whether
    a first render pass happens.  JavaScript exceptions are modelled by
    an error monad, the page by an explicit DOM state. *)

From Stdlib Require Import List String Ascii Bool Arith ZArith QArith Lia.
From Stdlib Require Import Sorting.Sorted Sorting.Permutation DecimalString.
Import ListNotations.
Local Open Scope string_scope.
Local Open Scope Z_scope.

(* ================================================================= *)
(** ** JavaScript built-ins *)

Module Js.

(** A completion is either a value or a thrown exception. *)
Inductive completion (A : Type) : Type :=
| Normal (a : A)
| Throw (e : string).
Arguments Normal {A} a.
Arguments Throw {A} e.

Definition bind {A B} (c : completion A) (k : A -> completion B) : completion B :=
  match c with
  | Normal a => k a
  | Throw e => Throw e
  end.

(** [o.method(...)]: a [TypeError] when the receiver is [null] or
    [undefined]. *)
Definition method {A B} (o : option A) (f : A -> B) : completion B :=
  match o with
  | Some a => Normal (f a)
  | None => Throw "TypeError: cannot read properties of undefined"
  end.

(** [a[i].field] for an array [a]: [a[i]] is [undefined] out of range, and
    reading a property of [undefined] throws. *)
Definition element {A} (a : list A) (i : nat) : completion A :=
  method (nth_error a i) (fun x => x).

Fixpoint mapM {A B} (f : A -> completion B) (l : list A) : completion (list B) :=
  match l with
  | [] => Normal []
  | x :: xs =>
      bind (f x) (fun y => bind (mapM f xs) (fun ys => Normal (y :: ys)))
  end.

(** Truthiness of a (possibly absent) string: [null], [undefined] and the
    empty string are falsy. *)
Definition truthy (s : string) : bool := negb (s =? "")%string.

Definition truthy_opt (o : option string) : bool :=
  match o with
  | Some s => truthy s
  | None => false
  end.

(** [Array.isArray(x)] for a field that holds an array or is absent. *)
Definition isArray {A} (o : option (list A)) : bool :=
  match o with
  | Some _ => true
  | None => false
  end.

(** [x || dflt] for a possibly absent object or array. *)
Definition or_else {A} (o : option A) (dflt : A) : A :=
  match o with
  | Some a => a
  | None => dflt
  end.

(** [String.prototype.toLowerCase].  The strings of this development are
    sequences of ASCII characters; on those the built-in maps exactly
    [A]-[Z].  Text outside ASCII, where the built-in follows the Unicode
    case mappings, is outside the model: a property that depends on how
    such text is lower-cased is stated for ASCII text only. *)
Definition lower_ascii (c : ascii) : ascii :=
  let n := nat_of_ascii c in
  if ((65 <=? n) && (n <=? 90))%nat then ascii_of_nat (n + 32) else c.

Fixpoint toLowerCase (s : string) : string :=
  match s with
  | EmptyString => EmptyString
  | String c s' => String (lower_ascii c) (toLowerCase s')
  end.

(** [h.includes(n)]: [n] occurs in [h] as a contiguous substring. *)
Fixpoint includes (h n : string) : bool :=
  String.prefix n h ||
  match h with
  | EmptyString => false
  | String _ h' => includes h' n
  end.

(** [s.split(sep)] for a one-character separator: every occurrence of the
    separator ends a field, empty fields are kept, and the result always
    has at least one field. *)
Fixpoint split (sep : ascii) (s : string) : list string :=
  match s with
  | EmptyString => [EmptyString]
  | String c s' =>
      if Ascii.eqb c sep then EmptyString :: split sep s'
      else match split sep s' with
           | [] => [String c EmptyString]
           | t :: ts => String c t :: ts
           end
  end.

(** White space as [String.prototype.trim] sees it on ASCII text:
    TAB, LF, VT, FF, CR and SPACE.  The built-in also strips U+00A0,
    U+FEFF and the other Unicode space separators, which no ASCII string
    contains. *)
Definition is_space (c : ascii) : bool :=
  let n := nat_of_ascii c in
  ((9 <=? n) && (n <=? 13) || (n =? 32))%nat.

Fixpoint trimStart (s : string) : string :=
  match s with
  | EmptyString => EmptyString
  | String c s' => if is_space c then trimStart s' else s
  end.

Fixpoint trimEnd (s : string) : string :=
  match s with
  | EmptyString => EmptyString
  | String c s' =>
      match trimEnd s' with
      | EmptyString => if is_space c then EmptyString else String c EmptyString
      | t => String c t
      end
  end.

Definition trim (s : string) : string := trimEnd (trimStart s).

(** [a.join(sep)] where [null] and [undefined] elements print as the empty
    string. *)
Fixpoint join (sep : string) (l : list (option string)) : string :=
  match l with
  | [] => EmptyString
  | [x] => or_else x EmptyString
  | x :: xs => or_else x EmptyString ++ sep ++ join sep xs
  end.

(** [a.slice(from, to)] for [0 <= from <= to]. *)
Definition slice {A} (a : list A) (from to : nat) : list A :=
  firstn (to - from) (skipn from a).

(** [Array.prototype.sort(cmp)].  ECMAScript (2019 onwards) requires the
    sort to be stable; for a consistent comparator the result of a stable
    sort is determined, and insertion from the right computes it:
    an element is placed before the first element it does not have to
    follow ([cmp x y <= 0]). *)
Fixpoint sort_insert {A} (cmp : A -> A -> Z) (x : A) (l : list A) : list A :=
  match l with
  | [] => [x]
  | y :: ys => if cmp x y <=? 0 then x :: y :: ys else y :: sort_insert cmp x ys
  end.

Fixpoint sort {A} (cmp : A -> A -> Z) (l : list A) : list A :=
  match l with
  | [] => []
  | x :: xs => sort_insert cmp x (sort cmp xs)
  end.

(** Template-literal printing of a non-negative integer. *)
Definition print_nat (n : nat) : string :=
  NilEmpty.string_of_uint (Nat.to_uint n).

End Js.

Import Js.

Notation "x <- c ;; k" := (Js.bind c (fun x => k))
  (at level 61, c at next level, right associativity).

(* ================================================================= *)
(** ** Data model *)

(** [model.hardware_profile]: every field may be absent. *)
Record HardwareHint : Type := {
  arch : option string;
  min_ram_gb : option Q;
  min_cores : option Z
}.

(** The object literal [{}]. *)
Definition empty_hint : HardwareHint :=
  {| arch := None; min_ram_gb := None; min_cores := None |}.

(** One entry of [models.json]. *)
Record ModelRecord : Type := {
  id : string;
  model_name : string;
  display_name : option string;
  provider : string;
  purpose : string;
  supports_tools : option bool;
  recommended_for : option (list string);
  hardware_profile : option HardwareHint;
  notes : option string;
  link_ollama : option string
}.

(** The object returned by [detectHardware].  Numbers are finite doubles,
    hence rationals; the core count is an integer. *)
Record HardwareProfile : Type := {
  os : string;
  cores : option Z;
  approxMemoryGb : option Q;
  isAppleSilicon : bool;
  gpu : option string
}.

(** One element of [scored]: [{ model: m, score: ... }]. *)
Record ScoredRecord : Type := {
  model : ModelRecord;
  score : Z
}.

(* ================================================================= *)
(** ** Scoring: [scoreModelForHardware] (script.js 142-171) *)

Definition arch_is (prof : HardwareHint) (a : string) : bool :=
  match arch prof with
  | Some x => (x =? a)%string
  | None => false
  end.

(** Lines 149-150. *)
Definition score_arch (hw : HardwareProfile) (prof : HardwareHint) (score : Z) : Z :=
  let score := if isAppleSilicon hw && arch_is prof "arm64" then score + 3 else score in
  if negb (isAppleSilicon hw) && arch_is prof "x86_64" then score + 2 else score.

(** Lines 152-155. *)
Definition score_ram (hw : HardwareProfile) (prof : HardwareHint) (score : Z) : Z :=
  match approxMemoryGb hw, min_ram_gb prof with
  | Some mem, Some req => if Qle_bool req mem then score + 3 else score - 2
  | _, _ => score
  end.

(** Lines 157-159. *)
Definition score_cores (hw : HardwareProfile) (prof : HardwareHint) (score : Z) : Z :=
  match cores hw, min_cores prof with
  | Some c, Some req => if req <=? c then score + 1 else score
  | _, _ => score
  end.

(** [String(s).toLowerCase().split(" ")[1] || ""]. *)
Definition gpu_token (s : string) : string :=
  match nth_error (split " " (toLowerCase s)) 1 with
  | Some t => if truthy t then t else ""
  | None => ""
  end.

(** Lines 162-168. *)
Definition score_gpu (m : ModelRecord) (hw : HardwareProfile) (score : Z) : completion Z :=
  if truthy_opt (gpu hw) && isArray (recommended_for m) then
    g <- method (gpu hw) toLowerCase ;;
    matched <- method (recommended_for m)
                 (existsb (fun s => includes g (gpu_token s))) ;;
    Normal (if matched : bool then score + 2 else score)
  else Normal score.

Definition scoreModelForHardware (m : ModelRecord) (hw : option HardwareProfile)
  : completion Z :=
  match hw with
  | None => Normal 0
  | Some hw =>
      let prof := or_else (hardware_profile m) empty_hint in
      let score := 0 in
      let score := score_arch hw prof score in
      let score := score_ram hw prof score in
      let score := score_cores hw prof score in
      score_gpu m hw score
  end.

(* ================================================================= *)
(** ** The page *)

(** An [article.wm-model] card: the record it shows and whether it carries
    the "Best match for your machine" chip. *)
Record Card : Type := {
  card_model : ModelRecord;
  card_recommended : bool
}.

(** A show-more wrapper attached to the parent of [#models-list].  Its
    click handler is a closure over [scored] and [topScore] of the render
    pass that created it. *)
Record ShowMore : Type := {
  node : nat;
  button_text : string;
  closure_scored : list ScoredRecord;
  closure_topScore : Z
}.

Record Dom : Type := {
  search_input : string;        (* #search-input .value *)
  purpose_select : string;      (* #purpose-select .value *)
  tools_select : string;        (* #tools-select .value *)
  list_text : string;           (* text directly inside #models-list *)
  models_list : list Card;      (* the .wm-model children of #models-list *)
  results_summary : string;     (* #results-summary .textContent *)
  show_more : list ShowMore;    (* wrappers under #models-list's parent *)
  fresh : nat                   (* identity of the next created node *)
}.

(** [listEl.innerHTML = ""]: only the children of [#models-list] go. *)
Definition clear_list (d : Dom) : Dom :=
  {| search_input := search_input d; purpose_select := purpose_select d;
     tools_select := tools_select d; list_text := ""; models_list := [];
     results_summary := results_summary d; show_more := show_more d;
     fresh := fresh d |}.

(** [listEl.textContent = t]. *)
Definition set_list_text (t : string) (d : Dom) : Dom :=
  {| search_input := search_input d; purpose_select := purpose_select d;
     tools_select := tools_select d; list_text := t; models_list := [];
     results_summary := results_summary d; show_more := show_more d;
     fresh := fresh d |}.

(** [summaryEl.textContent = t]. *)
Definition set_summary (t : string) (d : Dom) : Dom :=
  {| search_input := search_input d; purpose_select := purpose_select d;
     tools_select := tools_select d; list_text := list_text d;
     models_list := models_list d; results_summary := t;
     show_more := show_more d; fresh := fresh d |}.

(** [listEl.appendChild(card)] for each card of a batch. *)
Definition append_cards (cs : list Card) (d : Dom) : Dom :=
  {| search_input := search_input d; purpose_select := purpose_select d;
     tools_select := tools_select d; list_text := list_text d;
     models_list := models_list d ++ cs; results_summary := results_summary d;
     show_more := show_more d; fresh := fresh d |}.

(** [listEl.parentNode.appendChild(showMoreWrapper)] with a new node. *)
Definition append_show_more (text : string) (scored : list ScoredRecord)
    (topScore : Z) (d : Dom) : Dom :=
  {| search_input := search_input d; purpose_select := purpose_select d;
     tools_select := tools_select d; list_text := list_text d;
     models_list := models_list d; results_summary := results_summary d;
     show_more := show_more d ++
       [{| node := fresh d; button_text := text;
           closure_scored := scored; closure_topScore := topScore |}];
     fresh := S (fresh d) |}.

(** [showMoreWrapper.remove()]. *)
Definition remove_node (n : nat) (d : Dom) : Dom :=
  {| search_input := search_input d; purpose_select := purpose_select d;
     tools_select := tools_select d; list_text := list_text d;
     models_list := models_list d; results_summary := results_summary d;
     show_more := filter (fun w => negb (node w =? n)%nat) (show_more d);
     fresh := fresh d |}.

(** [showMoreButton.textContent = t]. *)
Definition set_button_text (n : nat) (t : string) (d : Dom) : Dom :=
  {| search_input := search_input d; purpose_select := purpose_select d;
     tools_select := tools_select d; list_text := list_text d;
     models_list := models_list d; results_summary := results_summary d;
     show_more :=
       map (fun w => if (node w =? n)%nat
                     then {| node := node w; button_text := t;
                             closure_scored := closure_scored w;
                             closure_topScore := closure_topScore w |}
                     else w) (show_more d);
     fresh := fresh d |}.

(* ================================================================= *)
(** ** Filtering (script.js 183-207) *)

Definition PAGE_SIZE : nat := 10.

Definition purpose_matches (p : string) (m : ModelRecord) : bool :=
  (purpose m =? p)%string.

(** [!!m.supports_tools === val]. *)
Definition tools_matches (val : bool) (m : ModelRecord) : bool :=
  Bool.eqb (or_else (supports_tools m) false) val.

Definition haystack (m : ModelRecord) : string :=
  toLowerCase
    (join " " ([Some (model_name m); display_name m; Some (provider m); notes m]
               ++ map Some (or_else (recommended_for m) []))).

Definition search_matches (search : string) (m : ModelRecord) : bool :=
  includes (haystack m) search.

(** Lines 185-187. *)
Definition purposeFilter (p : string) (l : list ModelRecord) : list ModelRecord :=
  if truthy p then filter (purpose_matches p) l else l.

(** Lines 189-192. *)
Definition toolsFilter (tools : string) (l : list ModelRecord) : list ModelRecord :=
  if truthy tools then filter (tools_matches (tools =? "true")%string) l else l.

(** Lines 194-207. *)
Definition searchFilter (search : string) (l : list ModelRecord) : list ModelRecord :=
  if truthy search then filter (search_matches search) l else l.

(** Lines 183-207, with [search] already lower-cased and trimmed. *)
Definition applyFilters (search p tools : string) (models : list ModelRecord)
  : list ModelRecord :=
  searchFilter search (toolsFilter tools (purposeFilter p models)).

(* ================================================================= *)
(** ** Score and sort (script.js 210-215) *)

Definition by_score_desc (a b : ScoredRecord) : Z := score b - score a.

Definition scoreAndSort (filtered : list ModelRecord) (hw : option HardwareProfile)
  : completion (list ScoredRecord) :=
  scored <- mapM (fun m => s <- scoreModelForHardware m hw ;;
                           Normal {| model := m; score := s |}) filtered ;;
  Normal (sort by_score_desc scored).

(* ================================================================= *)
(** ** Rendering and pagination (script.js 217-428) *)

Definition renderCard (recommended : bool) (sr : ScoredRecord) : Card :=
  {| card_model := model sr; card_recommended := recommended |}.

(** Lines 271 and 372: the test that guards the best-match chip. *)
Definition best_match (topScore : Z) (alreadyShownIsZero : bool) (sr : ScoredRecord)
  : bool :=
  (topScore <=? score sr) && (0 <? score sr) && alreadyShownIsZero.

Definition summary_text (n : nat) : string :=
  print_nat n ++ " model" ++ (if (n =? 1)%nat then "" else "s") ++
  " match your filters. Showing up to " ++ print_nat (Nat.min PAGE_SIZE n) ++
  " at a time. Top results are biased towards your detected hardware.".

Definition show_more_text (n : nat) : string :=
  "Show " ++ print_nat (Nat.min PAGE_SIZE n) ++ " more".

Definition no_match_text : string := "No models match the current filters.".

(** The click handler of lines 336-423, for the wrapper node [wrapper].
    [listEl.querySelectorAll(".wm-model").length] is the number of cards
    in the list: the catalog strings that reach the page as markup or as
    class names are taken not to create further elements of that class. *)
Definition showMoreClick (scored : list ScoredRecord) (topScore : Z)
    (wrapper : nat) (d : Dom) : Dom :=
  let alreadyShown := List.length (models_list d) in
  let nextSlice := slice scored alreadyShown (alreadyShown + PAGE_SIZE) in
  let d := append_cards
             (map (fun sr =>
                     renderCard (best_match topScore (alreadyShown =? 0)%nat sr) sr)
                  nextSlice) d in
  let remaining := Z.of_nat (List.length scored) - Z.of_nat (List.length (models_list d)) in
  if remaining <=? 0 then remove_node wrapper d
  else set_button_text wrapper (show_more_text (Z.to_nat remaining)) d.

Definition filterAndRender (models : list ModelRecord) (hw : option HardwareProfile)
    (d : Dom) : completion Dom :=
  let search := trim (toLowerCase (search_input d)) in
  let p := purpose_select d in
  let tools := tools_select d in
  let filtered := applyFilters search p tools models in
  scored <- scoreAndSort filtered hw ;;
  let d := clear_list d in
  if (List.length scored =? 0)%nat then Normal (set_summary no_match_text d)
  else
    let d := set_summary (summary_text (List.length scored)) d in
    top <- element scored 0 ;;
    let topScore := score top in
    let pageSlice := slice scored 0 PAGE_SIZE in
    let d := append_cards
               (map (fun sr => renderCard (best_match topScore true sr) sr) pageSlice)
               d in
    if (PAGE_SIZE <? List.length scored)%nat
    then Normal (append_show_more (show_more_text (List.length scored - PAGE_SIZE))
                   scored topScore d)
    else Normal d.

(** A user can only click a button that is in the document. *)
Definition click (wrapper : nat) (d : Dom) : Dom :=
  match find (fun w => (node w =? wrapper)%nat) (show_more d) with
  | Some w => showMoreClick (closure_scored w) (closure_topScore w) (node w) d
  | None => d
  end.

Fixpoint clicks (k : nat) (wrapper : nat) (d : Dom) : Dom :=
  match k with
  | O => d
  | S k' => clicks k' wrapper (click wrapper d)
  end.

(** [init], lines 446-472, once [loadModels] has settled with [loaded]:
    the catalog kept for later render passes and the page after the
    optional first pass. *)
Definition load_failed_text : string :=
  "Failed to load models.json. Check that GitHub Pages is serving static assets correctly.".

Definition init_models (loaded : completion (list ModelRecord))
    (hw : option HardwareProfile) (d : Dom)
  : list ModelRecord * completion Dom :=
  let '(models, d) :=
    match loaded with
    | Normal ms => (ms, d)
    | Throw _ => ([], set_list_text load_failed_text d)
    end in
  if (0 <? List.length models)%nat then (models, filterAndRender models hw d)
  else (models, Normal d).

(** The page before any render pass. *)
Definition initial_dom : Dom :=
  {| search_input := ""; purpose_select := ""; tools_select := "";
     list_text := ""; models_list := []; results_summary := "";
     show_more := []; fresh := 0 |}.

(* ================================================================= *)
(** ** Derived notions used to state the properties *)

(** The number [scoreModelForHardware] returns. *)
Definition score_value (m : ModelRecord) (hw : option HardwareProfile) : Z :=
  match scoreModelForHardware m hw with
  | Normal s => s
  | Throw _ => 0
  end.

(** The same profile with another memory estimate, or another GPU string. *)
Definition with_memory (hw : HardwareProfile) (mem : option Q) : HardwareProfile :=
  {| os := os hw; cores := cores hw; approxMemoryGb := mem;
     isAppleSilicon := isAppleSilicon hw; gpu := gpu hw |}.

Definition with_gpu (hw : HardwareProfile) (g : option string) : HardwareProfile :=
  {| os := os hw; cores := cores hw; approxMemoryGb := approxMemoryGb hw;
     isAppleSilicon := isAppleSilicon hw; gpu := g |}.

(** The second field of an entry cut at every single space character;
    the empty string when there is no second field. *)
Definition second_space_field (s : string) : string :=
  nth 1 (split " " s) "".

Definition gpu_bonus (g : string) (entries : list string) : Z :=
  if existsb (fun e => includes (toLowerCase g) (toLowerCase (second_space_field e)))
       entries
  then 2 else 0.

(** The GPU rule in the words of the specification: tokens are the maximal
    runs of characters that are not white space. *)
Fixpoint whitespace_tokens_from (cur : string) (s : string) : list string :=
  match s with
  | EmptyString => if truthy cur then [cur] else []
  | String c s' =>
      if is_space c
      then (if truthy cur then [cur] else []) ++ whitespace_tokens_from "" s'
      else whitespace_tokens_from (cur ++ String c "") s'
  end.

Definition whitespace_tokens (s : string) : list string :=
  whitespace_tokens_from "" s.

Definition second_whitespace_token (s : string) : string :=
  nth 1 (whitespace_tokens s) "".

Definition spec_gpu_bonus (g : string) (entries : list string) : Z :=
  if existsb
       (fun e => includes (toLowerCase g) (toLowerCase (second_whitespace_token e)))
       entries
  then 2 else 0.

(* ================================================================= *)
(** ** Sample data *)

Definition sample_record (name : string) (hint : option HardwareHint)
    (entries : option (list string)) : ModelRecord :=
  {| id := name; model_name := name; display_name := None; provider := "Ollama";
     purpose := "general"; supports_tools := Some true;
     recommended_for := entries; hardware_profile := hint; notes := None;
     link_ollama := None |}.

(** The two hints and the profile of the specification's scenario. *)
Definition hint_A : HardwareHint :=
  {| arch := Some "arm64"; min_ram_gb := Some 8%Q; min_cores := None |}.

Definition hint_B : HardwareHint :=
  {| arch := Some "x86_64"; min_ram_gb := Some 32%Q; min_cores := None |}.

Definition record_A : ModelRecord := sample_record "A" (Some hint_A) None.
Definition record_B : ModelRecord := sample_record "B" (Some hint_B) None.

Definition profile_M : HardwareProfile :=
  {| os := "macOS"; cores := Some 8; approxMemoryGb := Some 16%Q;
     isAppleSilicon := true; gpu := None |}.

(** An entry whose two words are separated by a TAB, and a profile whose
    GPU string mentions neither word. *)
Definition entry_tab : string := "RTX" ++ String "009" "3060".

Definition record_tab : ModelRecord :=
  sample_record "tab" None (Some [entry_tab]).

Definition profile_radeon : HardwareProfile :=
  {| os := "Linux"; cores := None; approxMemoryGb := None;
     isAppleSilicon := false; gpu := Some "AMD Radeon RX 6800" |}.

(* ================================================================= *)
(** ** Ranking and filtering, as values *)

Definition scored_of (hw : option HardwareProfile) (m : ModelRecord) : ScoredRecord :=
  {| model := m; score := score_value m hw |}.

(** The array [scored] of a render pass over [filtered]. *)
Definition rank (filtered : list ModelRecord) (hw : option HardwareProfile)
  : list ScoredRecord :=
  sort by_score_desc (map (scored_of hw) filtered).

(** [a] occurs at some position of [l] and [b] at a later one. *)
Definition before {A} (a b : A) (l : list A) : Prop :=
  exists l1 l2 l3 : list A, l = (l1 ++ a :: l2 ++ b :: l3)%list.

(** The conjunction of the three criteria; an empty criterion is true. *)
Definition passes (search p tools : string) (m : ModelRecord) : bool :=
  (negb (truthy p) || purpose_matches p m) &&
  (negb (truthy tools) || tools_matches (tools =? "true")%string m) &&
  (negb (truthy search) || search_matches search m).

(** Descending order of score. *)
Definition at_least (a b : ScoredRecord) : Prop := score b <= score a.

(* ================================================================= *)
(** ** A render pass and its reveals, as values *)

(** The array [scored] that [filterAndRender] builds on the page [d]. *)
Definition ranked_of (models : list ModelRecord) (hw : option HardwareProfile)
    (d : Dom) : list ScoredRecord :=
  rank (applyFilters (trim (toLowerCase (search_input d)))
          (purpose_select d) (tools_select d) models) hw.

(** [scored[0].score], read only on a non-empty array. *)
Definition top_score (r : list ScoredRecord) : Z :=
  match r with
  | [] => 0
  | top :: _ => score top
  end.

(** The page a render pass leaves, given its array [scored]. *)
Definition render_result (r : list ScoredRecord) (d : Dom) : Dom :=
  match r with
  | [] => set_summary no_match_text (clear_list d)
  | _ :: _ =>
      let d1 :=
        append_cards
          (map (fun sr => renderCard (best_match (top_score r) true sr) sr)
             (slice r 0 PAGE_SIZE))
          (set_summary (summary_text (List.length r)) (clear_list d)) in
      if (PAGE_SIZE <? List.length r)%nat
      then append_show_more (show_more_text (List.length r - PAGE_SIZE))
             r (top_score r) d1
      else d1
  end.

(** The cards on the page when [c] records of [r] are revealed: the first
    page carries the chip by the test of line 271, later batches by the
    test of line 372 with [alreadyShown] positive. *)
Definition revealed_cards (r : list ScoredRecord) (c : nat) : list Card :=
  (map (fun sr => renderCard (best_match (top_score r) true sr) sr)
     (firstn PAGE_SIZE r)
   ++ map (renderCard false) (slice r PAGE_SIZE c))%list.

(** Node identities in the document are older than the next fresh one. *)
Definition dom_ok (d : Dom) : Prop :=
  Forall (fun w => (node w < fresh d)%nat) (show_more d).

(** The state of the pass that created wrapper [n] over [r], with [c]
    records revealed: its button is in the document exactly while records
    remain. *)
Definition in_session (r : list ScoredRecord) (n c : nat) (d : Dom) : Prop :=
  models_list d = revealed_cards r c /\
  (Nat.min PAGE_SIZE (List.length r) <= c <= List.length r)%nat /\
  if (c <? List.length r)%nat
  then exists w, find (fun w => (node w =? n)%nat) (show_more d) = Some w /\
                 node w = n /\ closure_scored w = r /\
                 closure_topScore w = top_score r
  else find (fun w => (node w =? n)%nat) (show_more d) = None.

(** The user edits the search box. *)
Definition type_search (t : string) (d : Dom) : Dom :=
  {| search_input := t; purpose_select := purpose_select d;
     tools_select := tools_select d; list_text := list_text d;
     models_list := models_list d; results_summary := results_summary d;
     show_more := show_more d; fresh := fresh d |}.

(* ================================================================= *)
(** ** Hardware detection: [detectHardware] (script.js 8-56) *)

(** The fields of [navigator] the function reads.  A numeric field is
    [Some] exactly when its [typeof] is ["number"]. *)
Record Navigator : Type := {
  nav_userAgent : option string;
  nav_platform : option string;
  hardwareConcurrency : option Z;
  deviceMemory : option Q
}.

(** A WebGL context: each call returns or throws.  [getExtension] stands
    for [getExtension("WEBGL_debug_renderer_info")], an object or [null]. *)
Record WebGL : Type := {
  getExtension : completion bool;
  getParameter_renderer : completion string;
  getParameter_vendor : completion string
}.

(** A canvas element: [getContext] for the two context names. *)
Record Canvas : Type := {
  getContext_webgl : completion (option WebGL);
  getContext_experimental : completion (option WebGL)
}.

(** [/pattern/.test(s)] for a pattern without metacharacters. *)
Definition test (pattern s : string) : bool := includes s pattern.

(** Lines 17-20. *)
Definition detect_os (ua : string) : string :=
  if test "Mac OS X" ua || test "Macintosh" ua then "macOS"
  else if test "Windows NT" ua then "Windows"
  else if test "Linux" ua then "Linux"
  else "Unknown".

(** Lines 23-27. *)
Definition detect_apple_silicon (os ua : string) : bool :=
  (os =? "macOS")%string &&
  (test "Apple Silicon" ua || test "arm64" ua || test "; U; CPU OS" ua).

(** The body of the [try] block, lines 32-42: the value [gpu] would be
    assigned, or the exception that leaves the block. *)
Definition read_gpu (createCanvas : completion Canvas) : completion (option string) :=
  canvas <- createCanvas ;;
  first <- getContext_webgl canvas ;;
  gl <- match first with
        | Some g => Normal (Some g)
        | None => getContext_experimental canvas
        end ;;
  match gl with
  | None => Normal None
  | Some gl =>
      dbgInfo <- getExtension gl ;;
      if dbgInfo : bool then
        renderer <- getParameter_renderer gl ;;
        vendor <- getParameter_vendor gl ;;
        Normal (Some (trim (vendor ++ " " ++ renderer)))
      else Normal None
  end.

(** [let gpu = null; try { ... } catch { }], lines 30-45. *)
Definition detect_gpu (createCanvas : completion Canvas) : option string :=
  match read_gpu createCanvas with
  | Normal g => g
  | Throw _ => None
  end.

(** The returned object: the five fields the rest of the script reads,
    and [userAgent] and [platform], which nothing reads. *)
Record Detected : Type := {
  detected_profile : HardwareProfile;
  detected_userAgent : string;
  detected_platform : string
}.

Definition detectHardware (nav : Navigator) (createCanvas : completion Canvas)
  : Detected :=
  let ua := or_else (nav_userAgent nav) "" in
  let platform := or_else (nav_platform nav) "" in
  let os := detect_os ua in
  {| detected_profile :=
       {| os := os;
          cores := hardwareConcurrency nav;
          approxMemoryGb := deviceMemory nav;
          isAppleSilicon := detect_apple_silicon os ua;
          gpu := detect_gpu createCanvas |};
     detected_userAgent := ua;
     detected_platform := platform |}.

(* ================================================================= *)
(** ** The hardware summary: [renderHardwareSummary] (script.js 58-115) *)

Record SummaryItem : Type := {
  item_label : string;
  item_value : string
}.

(** The content of [#hardware-detected]: a text, or the grid of items. *)
Inductive HardwareEl : Type :=
| HwText (t : string)
| HwGrid (items : list SummaryItem).

(** Template-literal printing of an integer. *)
Definition print_int (z : Z) : string :=
  NilEmpty.string_of_int (Z.to_int z).

Definition no_hardware_text : string :=
  "Could not detect hardware information in this browser.".

Definition approx_sign : string := String "226" (String "137" (String "136" "")).

Section HardwareSummary.

(** How a template literal prints a number that need not be an integer. *)
Variable number_text : Q -> string.

(** Lines 67-95: the items pushed, in order. *)
Definition hardware_items (hw : HardwareProfile) : list SummaryItem :=
  ([ {| item_label := "OS"; item_value := os hw |} ]
   ++ (if isAppleSilicon hw
       then [ {| item_label := "CPU"; item_value := "Apple Silicon (approximate)" |} ]
       else [])
   ++ match cores hw with
      | Some c => [ {| item_label := "Cores"; item_value := print_int c ++ " logical" |} ]
      | None => []
      end
   ++ match approxMemoryGb hw with
      | Some mem => [ {| item_label := "RAM";
                         item_value := approx_sign ++ number_text mem
                                       ++ " GB (browser estimate)" |} ]
      | None => []
      end
   ++ (if truthy_opt (gpu hw)
       then [ {| item_label := "GPU"; item_value := or_else (gpu hw) "" |} ]
       else []))%list.

Definition renderHardwareSummary (hw : option HardwareProfile)
    (el : option HardwareEl) : option HardwareEl :=
  match el with
  | None => None
  | Some _ =>
      match hw with
      | None => Some (HwText no_hardware_text)
      | Some hw => Some (HwGrid (hardware_items hw))
      end
  end.

End HardwareSummary.

(* ================================================================= *)
(** ** Loading (script.js 117-136) *)

(** What [fetch] resolves to: the status and the outcome of [json()]. *)
Record Response (A : Type) : Type := {
  ok : bool;
  status : nat;
  json : completion A
}.
Arguments ok {A} r.
Arguments status {A} r.
Arguments json {A} r.

Record Contributor : Type := {
  contributor_name : option string;
  contributor_github : option string
}.

(** Lines 117-123; the argument is what [await fetch(...)] gives. *)
Definition loadModels (fetched : completion (Response (list ModelRecord)))
  : completion (list ModelRecord) :=
  res <- fetched ;;
  if negb (ok res)
  then Throw ("Failed to load models.json: " ++ print_nat (status res))
  else json res.

(** Lines 125-136.  The [catch] covers the awaited [fetch] and the
    [throw]; [return res.json()] hands the promise out without awaiting
    it, so its rejection settles the result outside the [try]. *)
Definition loadContributors (fetched : completion (Response (list Contributor)))
  : completion (list Contributor) :=
  match fetched with
  | Throw _ => Normal []
  | Normal res => if negb (ok res) then Normal [] else json res
  end.

(* ================================================================= *)
(** ** [init] (script.js 430-502) *)

Record Link : Type := {
  href : string;
  link_text : string
}.

(** Lines 431-441, on the element [#repo-link] when the page has one. *)
Definition infer_repo_link (hostname pathname : string) (repoLink : option Link)
  : option Link :=
  match repoLink with
  | None => None
  | Some l =>
      if includes hostname "github.io" then
        match filter truthy (split "/" pathname) with
        | [] => Some l
        | repo :: _ =>
            let user := match split "." hostname with
                        | [] => "undefined"
                        | u :: _ => u
                        end in
            Some {| href := "https://github.com/" ++ user ++ "/" ++ repo;
                    link_text := user ++ "/" ++ repo |}
        end
      else Some l
  end.

(** A [div.wm-contributor]: the value given to the name's [textContent]
    and the link, when there is one. *)
Record Badge : Type := {
  badge_name : option string;
  badge_link : option Link
}.

(** The content of [#contributors-list]. *)
Record ContributorsEl : Type := {
  contributors_text : string;
  contributors_badges : list Badge
}.

Definition no_contributors_text : string :=
  "No contributors listed yet. Be the first by sending a pull request!".

(** Lines 484-498. *)
Definition contributor_badge (c : Contributor) : Badge :=
  {| badge_name := if truthy_opt (contributor_name c)
                   then contributor_name c else contributor_github c;
     badge_link :=
       if truthy_opt (contributor_github c)
       then Some {| href := "https://github.com/" ++ or_else (contributor_github c) "";
                    link_text := " @" ++ or_else (contributor_github c) "" |}
       else None |}.

(** Lines 477-500, once [loadContributors] has given [contributors]. *)
Definition render_contributors (contributors : list Contributor) : ContributorsEl :=
  if (List.length contributors =? 0)%nat
  then {| contributors_text := no_contributors_text; contributors_badges := [] |}
  else {| contributors_text := ""; contributors_badges := map contributor_badge contributors |}.

(** Lines 475-501. *)
Definition init_contributors (fetched : completion (Response (list Contributor)))
    (container : option ContributorsEl) : completion (option ContributorsEl) :=
  match container with
  | None => Normal None
  | Some _ =>
      contributors <- loadContributors fetched ;;
      Normal (Some (render_contributors contributors))
  end.

(** The document, and what the browser gives [init]. *)
Record Page : Type := {
  dom : Dom;
  repo_link : option Link;
  hardware_detected : option HardwareEl;
  contributors_list : option ContributorsEl
}.

Record Browser : Type := {
  hostname : string;
  pathname : string;
  navigator : Navigator;
  createCanvas : completion Canvas;
  fetch_models : completion (Response (list ModelRecord));
  fetch_contributors : completion (Response (list Contributor))
}.

(** What [init] leaves when it returns: the page, and the catalog and the
    profile its [rerender] closure holds. *)
Record Started : Type := {
  page : Page;
  held_models : list ModelRecord;
  held_hw : HardwareProfile
}.

Section Init.

Variable number_text : Q -> string.

Definition init (b : Browser) (p : Page) : completion Started :=
  let link := infer_repo_link (hostname b) (pathname b) (repo_link p) in
  let hw := detected_profile (detectHardware (navigator b) (createCanvas b)) in
  let hwEl := renderHardwareSummary number_text (Some hw) (hardware_detected p) in
  let '(models, rendered) :=
    init_models (loadModels (fetch_models b)) (Some hw) (dom p) in
  d <- rendered ;;
  container <- init_contributors (fetch_contributors b) (contributors_list p) ;;
  Normal {| page := {| dom := d; repo_link := link; hardware_detected := hwEl;
                       contributors_list := container |};
            held_models := models;
            held_hw := hw |}.

(** The [rerender] listener of line 458. *)
Definition rerender (s : Started) : completion Started :=
  d <- filterAndRender (held_models s) (Some (held_hw s)) (dom (page s)) ;;
  Normal {| page := {| dom := d; repo_link := repo_link (page s);
                       hardware_detected := hardware_detected (page s);
                       contributors_list := contributors_list (page s) |};
            held_models := held_models s;
            held_hw := held_hw s |}.

End Init.

(* ================================================================= *)
(** ** What a card shows (script.js 239-315, and again 340-414) *)

Record CardView : Type := {
  view_name : string;          (* .wm-model-name *)
  view_tagline : string;       (* .wm-model-tagline *)
  purpose_class : string;
  purpose_text : string;
  tools_class : string;
  tools_text : string;
  recommended_chip : bool;
  runs_well_on_html : string;  (* interpolated into [innerHTML] after the
                                  "Runs well on" label: parsed as markup *)
  ollama_link : option string  (* href of "View on Ollama" *)
}.

(** [a || b] on strings, the first possibly absent. *)
Definition or_text (a : option string) (b : string) : string :=
  if truthy_opt a then or_else a "" else b.

Definition card_view (c : Card) : CardView :=
  let m := card_model c in
  let tools := or_else (supports_tools m) false in
  {| view_name := or_text (display_name m) (model_name m);
     view_tagline :=
       or_text (notes m)
         "Community suggestion. See models.json for more information.";
     purpose_class := "wm-chip purpose-" ++ purpose m;
     purpose_text :=
       if (purpose m =? "coding")%string then "Coding" else "General assistant";
     tools_class := "wm-chip tools-" ++ (if tools then "yes" else "no");
     tools_text := if tools then "Tools / function calling" else "No tools";
     recommended_chip := card_recommended c;
     runs_well_on_html :=
       or_text (Some (join ", " (map Some (or_else (recommended_for m) []))))
         "Community to fill in";
     ollama_link := if truthy_opt (link_ollama m) then link_ollama m else None |}.

(* ================================================================= *)
(** ** More derived notions *)

Definition with_cores (hw : HardwareProfile) (c : option Z) : HardwareProfile :=
  {| os := os hw; cores := c; approxMemoryGb := approxMemoryGb hw;
     isAppleSilicon := isAppleSilicon hw; gpu := gpu hw |}.

(** The texts the search looks into, lines 196-202. *)
Definition searchable_fields (m : ModelRecord) : list string :=
  ([model_name m]
   ++ match display_name m with Some s => [s] | None => [] end
   ++ [provider m]
   ++ match notes m with Some s => [s] | None => [] end
   ++ or_else (recommended_for m) [])%list.

(** [n] occurs in [h]. *)
Definition substring_of (n h : string) : Prop :=
  exists a b, h = a ++ n ++ b.

Definition all_space (s : string) : Prop :=
  Forall (fun c => is_space c = true) (list_ascii_of_string s).

Definition no_char (c : ascii) (s : string) : Prop :=
  Forall (fun x => x <> c) (list_ascii_of_string s).

(** Text within ASCII, where the string built-ins above are the
    JavaScript ones. *)
Definition ascii_text (s : string) : Prop :=
  forallb (fun c => (nat_of_ascii c <? 128)%nat) (list_ascii_of_string s) = true.

(** The user picks a purpose, a tools option. *)
Definition select_purpose (p : string) (d : Dom) : Dom :=
  {| search_input := search_input d; purpose_select := p;
     tools_select := tools_select d; list_text := list_text d;
     models_list := models_list d; results_summary := results_summary d;
     show_more := show_more d; fresh := fresh d |}.

Definition select_tools (t : string) (d : Dom) : Dom :=
  {| search_input := search_input d; purpose_select := purpose_select d;
     tools_select := t; list_text := list_text d;
     models_list := models_list d; results_summary := results_summary d;
     show_more := show_more d; fresh := fresh d |}.

(* ================================================================= *)
(** * Properties of the built-ins *)

Section Builtins.

Lemma lower_ascii_space (c : ascii) :
  Ascii.eqb (lower_ascii c) " " = Ascii.eqb c " ".
Proof.
  destruct c as [[] [] [] [] [] [] [] []]; reflexivity.
Qed.

Lemma toLowerCase_split_space (s : string) :
  split " " (toLowerCase s) = map toLowerCase (split " " s).
Proof.
  induction s as [|c s IH]; simpl; [reflexivity|].
  rewrite lower_ascii_space, IH.
  destruct (Ascii.eqb c " "); [reflexivity|].
  destruct (split " " s); reflexivity.
Qed.

Lemma truthy_false_iff (s : string) : truthy s = false <-> s = "".
Proof.
  unfold truthy. destruct (String.eqb_spec s ""); simpl; split; congruence.
Qed.

Lemma truthy_true_iff (s : string) : truthy s = true <-> s <> "".
Proof.
  unfold truthy. destruct (String.eqb_spec s ""); simpl; split; congruence.
Qed.

Lemma includes_empty (h : string) : includes h "" = true.
Proof. destruct h; reflexivity. Qed.

Lemma existsb_pointwise {A} (f g : A -> bool) (l : list A) :
  (forall x, f x = g x) -> existsb f l = existsb g l.
Proof.
  intros E. induction l as [|x xs IH]; simpl; [reflexivity|].
  now rewrite E, IH.
Qed.

Lemma mapM_normal {A B} (f : A -> completion B) (g : A -> B) (l : list A) :
  (forall x, f x = Normal (g x)) -> mapM f l = Normal (map g l).
Proof.
  intros Hf. induction l as [|x xs IH]; simpl; [reflexivity|].
  now rewrite Hf, IH.
Qed.

End Builtins.

(* ================================================================= *)
(** * Properties of scoring *)

Section Scoring.

(** The token the code extracts is the lower-cased second space field. *)
Lemma gpu_token_field (s : string) :
  gpu_token s = toLowerCase (second_space_field s).
Proof.
  unfold gpu_token, second_space_field.
  rewrite toLowerCase_split_space.
  destruct (split " " s) as [|a [|b l]]; simpl; try reflexivity.
  destruct (truthy (toLowerCase b)) eqn:E; [reflexivity|].
  now apply truthy_false_iff in E.
Qed.

Lemma score_gpu_absent (m : ModelRecord) (hw : HardwareProfile) (s : Z) :
  truthy_opt (gpu hw) = false \/ recommended_for m = None ->
  score_gpu m hw s = Normal s.
Proof.
  unfold score_gpu. intros [H|H]; rewrite H; [reflexivity|].
  now rewrite andb_false_r.
Qed.

Lemma score_gpu_present (m : ModelRecord) (hw : HardwareProfile) (s : Z)
    (g : string) (entries : list string) :
  gpu hw = Some g -> g <> "" -> recommended_for m = Some entries ->
  score_gpu m hw s = Normal (s + gpu_bonus g entries).
Proof.
  intros Hg Hne Hr. unfold score_gpu, gpu_bonus. rewrite Hg, Hr. simpl.
  apply truthy_true_iff in Hne. rewrite Hne. simpl.
  rewrite (existsb_pointwise _ (fun e => includes (toLowerCase g)
                                          (toLowerCase (second_space_field e)))).
  - destruct (existsb _ entries); f_equal; lia.
  - intros e. now rewrite gpu_token_field.
Qed.

(** The GPU step never throws and adds 0 or 2, whatever came before. *)
Lemma score_gpu_total (m : ModelRecord) (hw : HardwareProfile) :
  exists b, (b = 0 \/ b = 2) /\ forall s, score_gpu m hw s = Normal (s + b).
Proof.
  destruct (gpu hw) as [g|] eqn:Hg.
  - destruct (recommended_for m) as [entries|] eqn:Hr.
    + destruct (String.eqb_spec g "") as [->|Hne].
      * exists 0. split; [now left|]. intros s. rewrite Z.add_0_r.
        apply score_gpu_absent. left. now rewrite Hg.
      * exists (gpu_bonus g entries). split.
        -- unfold gpu_bonus. destruct (existsb _ entries); auto.
        -- intros s. now apply score_gpu_present.
    + exists 0. split; [now left|]. intros s. rewrite Z.add_0_r.
      apply score_gpu_absent. now right.
  - exists 0. split; [now left|]. intros s. rewrite Z.add_0_r.
    apply score_gpu_absent. left. now rewrite Hg.
Qed.

Lemma score_cores_shift (hw : HardwareProfile) (prof : HardwareHint) (s : Z) :
  score_cores hw prof s = s + score_cores hw prof 0.
Proof.
  unfold score_cores.
  destruct (cores hw), (min_cores prof); try lia.
  destruct (_ <=? _); lia.
Qed.

Lemma score_arch_range (hw : HardwareProfile) (prof : HardwareHint) (s : Z) :
  s <= score_arch hw prof s <= s + 3.
Proof.
  unfold score_arch.
  destruct (isAppleSilicon hw); simpl;
    destruct (arch_is prof "arm64"), (arch_is prof "x86_64"); lia.
Qed.

Lemma score_ram_range (hw : HardwareProfile) (prof : HardwareHint) (s : Z) :
  s - 2 <= score_ram hw prof s <= s + 3.
Proof.
  unfold score_ram.
  destruct (approxMemoryGb hw), (min_ram_gb prof); try lia.
  destruct (Qle_bool _ _); lia.
Qed.

Lemma score_cores_range (hw : HardwareProfile) (prof : HardwareHint) (s : Z) :
  s <= score_cores hw prof s <= s + 1.
Proof.
  unfold score_cores.
  destruct (cores hw), (min_cores prof); try lia.
  destruct (_ <=? _); lia.
Qed.

Lemma score_total (m : ModelRecord) (hw : option HardwareProfile) :
  scoreModelForHardware m hw = Normal (score_value m hw).
Proof.
  unfold score_value. destruct hw as [hw|]; [|reflexivity]. simpl.
  destruct (score_gpu_total m hw) as (b & _ & ->).
  reflexivity.
Qed.

(** C10: the score is an integer between -2 and 9, whatever the record and
    the hardware profile (absent profile included). *)
Theorem score_bounds (m : ModelRecord) (hw : option HardwareProfile) :
  exists s, scoreModelForHardware m hw = Normal s /\ -2 <= s <= 9.
Proof.
  destruct hw as [hw|]; simpl.
  - set (prof := or_else (hardware_profile m) empty_hint).
    destruct (score_gpu_total m hw) as (b & Hb & ->).
    eexists; split; [reflexivity|].
    pose proof (score_arch_range hw prof 0).
    pose proof (score_ram_range hw prof (score_arch hw prof 0)).
    pose proof (score_cores_range hw prof (score_ram hw prof (score_arch hw prof 0))).
    lia.
  - exists 0. split; [reflexivity|lia].
Qed.

(** C4: with a required amount of RAM in the hint, moving the memory
    estimate from below the requirement to at or above it, everything else
    unchanged, raises the score by exactly 5. *)
Theorem ram_step_adds_five (m : ModelRecord) (hint : HardwareHint) (req : Q)
    (hw : HardwareProfile) (lo hi : Q) :
  hardware_profile m = Some hint ->
  min_ram_gb hint = Some req ->
  (lo < req)%Q -> (req <= hi)%Q ->
  exists s,
    scoreModelForHardware m (Some (with_memory hw (Some lo))) = Normal s /\
    scoreModelForHardware m (Some (with_memory hw (Some hi))) = Normal (s + 5).
Proof.
  intros Hh Hr Hlo Hhi. simpl. rewrite Hh. simpl.
  unfold score_ram. simpl. rewrite Hr.
  apply Qle_bool_iff in Hhi. rewrite Hhi.
  assert (Qle_bool req lo = false) as ->.
  { destruct (Qle_bool req lo) eqn:E; [|reflexivity].
    apply Qle_bool_iff in E. exfalso. exact (Qlt_not_le _ _ Hlo E). }
  destruct (score_gpu_total m hw) as (b & _ & Hgpu).
  change (score_gpu m (with_memory hw (Some lo))) with (score_gpu m hw).
  change (score_gpu m (with_memory hw (Some hi))) with (score_gpu m hw).
  rewrite !Hgpu.
  change (score_arch (with_memory hw (Some hi)) hint 0)
    with (score_arch (with_memory hw (Some lo)) hint 0).
  eexists; split; [reflexivity|]. f_equal.
  rewrite (score_cores_shift _ _ (_ - 2)), (score_cores_shift _ _ (_ + 3)).
  change (score_cores (with_memory hw (Some hi)) hint 0)
    with (score_cores (with_memory hw (Some lo)) hint 0).
  lia.
Qed.

Lemma ram_step_adds_five_witness :
  exists s,
    scoreModelForHardware record_A (Some (with_memory profile_M (Some 4%Q)))
      = Normal s /\
    scoreModelForHardware record_A (Some (with_memory profile_M (Some 16%Q)))
      = Normal (s + 5).
Proof.
  apply (ram_step_adds_five record_A hint_A 8%Q profile_M 4%Q 16%Q);
    [reflexivity | reflexivity | reflexivity | discriminate].
Defined.

Lemma score_arch_shift (hw : HardwareProfile) (prof : HardwareHint) (s : Z) :
  score_arch hw prof s = s + score_arch hw prof 0.
Proof.
  unfold score_arch.
  destruct (isAppleSilicon hw); simpl;
    destruct (arch_is prof "arm64"), (arch_is prof "x86_64"); lia.
Qed.

Lemma score_ram_shift (hw : HardwareProfile) (prof : HardwareHint) (s : Z) :
  score_ram hw prof s = s + score_ram hw prof 0.
Proof.
  unfold score_ram.
  destruct (approxMemoryGb hw), (min_ram_gb prof); try lia.
  destruct (Qle_bool _ _); lia.
Qed.

(** C8: scoring is total.  An absent profile gives 0; with a profile the
    call returns the sum of the four factors and never throws; and each
    factor is 0 as soon as one of the optional fields it reads is absent
    (the core count, the memory estimate, the GPU string, the hint or one
    of its fields, the list of recommended hardware). *)
Theorem scoring_total_absent_fields_neutral :
  (forall m, scoreModelForHardware m None = Normal 0) /\
  (forall m hw, exists s, scoreModelForHardware m hw = Normal s) /\
  (forall m hw,
     let prof := or_else (hardware_profile m) empty_hint in
     exists g,
       scoreModelForHardware m (Some hw) =
         Normal (score_arch hw prof 0 + score_ram hw prof 0
                 + score_cores hw prof 0 + g) /\
       (g = 0 \/ g = 2) /\
       (gpu hw = None \/ recommended_for m = None -> g = 0) /\
       (arch prof = None -> score_arch hw prof 0 = 0) /\
       (approxMemoryGb hw = None \/ min_ram_gb prof = None ->
          score_ram hw prof 0 = 0) /\
       (cores hw = None \/ min_cores prof = None -> score_cores hw prof 0 = 0) /\
       (hardware_profile m = None ->
          score_arch hw prof 0 = 0 /\ score_ram hw prof 0 = 0 /\
          score_cores hw prof 0 = 0)).
Proof.
  split; [reflexivity|]. split.
  { intros m hw. eexists. apply score_total. }
  intros m hw prof.
  assert (Harch : arch prof = None -> score_arch hw prof 0 = 0).
  { intros H. unfold score_arch, arch_is. rewrite H.
    now rewrite !andb_false_r. }
  assert (Hram : approxMemoryGb hw = None \/ min_ram_gb prof = None ->
                 score_ram hw prof 0 = 0).
  { unfold score_ram. intros [H|H]; rewrite H; [reflexivity|].
    now destruct (approxMemoryGb hw). }
  assert (Hcores : cores hw = None \/ min_cores prof = None ->
                   score_cores hw prof 0 = 0).
  { unfold score_cores. intros [H|H]; rewrite H; [reflexivity|].
    now destruct (cores hw). }
  assert (Hgpu : exists g, (g = 0 \/ g = 2) /\
                   (gpu hw = None \/ recommended_for m = None -> g = 0) /\
                   forall s, score_gpu m hw s = Normal (s + g)).
  { destruct (gpu hw) as [gs|] eqn:Eg; [destruct (recommended_for m) eqn:Er|].
    - destruct (score_gpu_total m hw) as (g & Hg & Hs).
      exists g. repeat split; trivial. intros [H|H]; discriminate.
    - exists 0. repeat split; auto. intros s. rewrite Z.add_0_r.
      apply score_gpu_absent. now right.
    - exists 0. repeat split; auto. intros s. rewrite Z.add_0_r.
      apply score_gpu_absent. left. now rewrite Eg. }
  destruct Hgpu as (g & Hg & Hg0 & Hs).
  exists g.
  split; [|split; [|split; [|split; [|split; [|split]]]]]; trivial.
  - simpl. fold prof. rewrite Hs. f_equal.
    rewrite score_cores_shift, score_ram_shift. lia.
  - intros Hnone.
    assert (prof = empty_hint) as E by (subst prof; now rewrite Hnone).
    split; [|split].
    + apply Harch. now rewrite E.
    + apply Hram. right. now rewrite E.
    + apply Hcores. right. now rewrite E.
Qed.

Lemma second_space_field_one_word (s : string) :
  (forall c, In c (list_ascii_of_string s) -> c <> " "%char) ->
  second_space_field s = "".
Proof.
  intros H. unfold second_space_field.
  assert (E : split " " s = [s]).
  { induction s as [|c s IH]; simpl; [reflexivity|].
    destruct (Ascii.eqb_spec c " ") as [->|_].
    - exfalso. apply (H " "%char); simpl; auto.
    - rewrite IH; [reflexivity|]. intros c' Hc'. apply H. simpl. auto. }
  now rewrite E.
Qed.

(** C5, as the code has it: with a non-empty GPU string and an array of
    recommended hardware, the GPU factor is 2 when the lower-cased second
    field of some entry, the entry being cut at every single space
    character (the empty string when there is no second field), occurs in
    the lower-cased GPU string, and 0 otherwise; it is added once. *)
Theorem gpu_factor_space_fields (m : ModelRecord) (hw : HardwareProfile)
    (g : string) (entries : list string) :
  gpu hw = Some g -> g <> "" -> recommended_for m = Some entries ->
  (forall s, score_gpu m hw s = Normal (s + gpu_bonus g entries)) /\
  scoreModelForHardware m (Some hw) =
    Normal (score_value m (Some (with_gpu hw None)) + gpu_bonus g entries) /\
  (gpu_bonus g entries = 2 <->
     exists e, In e entries /\
       includes (toLowerCase g) (toLowerCase (second_space_field e)) = true) /\
  (gpu_bonus g entries = 2 \/ gpu_bonus g entries = 0).
Proof.
  intros Hg Hne Hr.
  assert (Hs : forall s, score_gpu m hw s = Normal (s + gpu_bonus g entries)).
  { intros s. now apply score_gpu_present. }
  split; [exact Hs|]. split; [|split].
  - unfold score_value.
    change (scoreModelForHardware m (Some (with_gpu hw None)))
      with (score_gpu m (with_gpu hw None)
              (score_cores hw (or_else (hardware_profile m) empty_hint)
                 (score_ram hw (or_else (hardware_profile m) empty_hint)
                    (score_arch hw (or_else (hardware_profile m) empty_hint) 0)))).
    rewrite (score_gpu_absent m (with_gpu hw None)) by now left.
    apply Hs.
  - unfold gpu_bonus.
    destruct (existsb _ entries) eqn:E.
    + split; [intros _|reflexivity].
      apply existsb_exists in E. exact E.
    + split; [discriminate|]. intros Hex.
      apply existsb_exists in Hex. congruence.
  - unfold gpu_bonus. destruct (existsb _ entries); auto.
Qed.

Lemma gpu_factor_space_fields_witness :
  (forall s, score_gpu record_tab profile_radeon s
             = Normal (s + gpu_bonus "AMD Radeon RX 6800" [entry_tab])) /\
  scoreModelForHardware record_tab (Some profile_radeon) =
    Normal (score_value record_tab (Some (with_gpu profile_radeon None))
            + gpu_bonus "AMD Radeon RX 6800" [entry_tab]) /\
  (gpu_bonus "AMD Radeon RX 6800" [entry_tab] = 2 <->
     exists e, In e [entry_tab] /\
       includes (toLowerCase "AMD Radeon RX 6800")
         (toLowerCase (second_space_field e)) = true) /\
  (gpu_bonus "AMD Radeon RX 6800" [entry_tab] = 2 \/
   gpu_bonus "AMD Radeon RX 6800" [entry_tab] = 0).
Proof.
  apply (gpu_factor_space_fields record_tab profile_radeon
           "AMD Radeon RX 6800" [entry_tab]);
    [reflexivity | discriminate | reflexivity].
Defined.

(** C5, as worded: the entry "RTX<TAB>3060" has the second
    white-space-delimited token "3060", which does not occur in
    "amd radeon rx 6800", so the worded rule gives 0; the code cuts at
    spaces only, finds no second field, tests the empty string and adds 2. *)
Lemma gpu_factor_whitespace_counterexample :
  gpu profile_radeon = Some "AMD Radeon RX 6800" /\
  recommended_for record_tab = Some [entry_tab] /\
  second_whitespace_token entry_tab = "3060" /\
  spec_gpu_bonus "AMD Radeon RX 6800" [entry_tab] = 0 /\
  score_gpu record_tab profile_radeon 0 = Normal 2 /\
  score_gpu record_tab profile_radeon 0 <>
    Normal (0 + spec_gpu_bonus "AMD Radeon RX 6800" [entry_tab]).
Proof.
  repeat split; try reflexivity. discriminate.
Qed.

(** The same happens with two adjacent spaces: the second field is empty. *)
Example gpu_factor_double_space :
  second_space_field "RTX  3060" = "" /\
  second_whitespace_token "RTX  3060" = "3060" /\
  gpu_bonus "AMD Radeon RX 6800" ["RTX  3060"] = 2 /\
  spec_gpu_bonus "AMD Radeon RX 6800" ["RTX  3060"] = 0.
Proof. repeat split; reflexivity. Qed.

(** On entries written with single spaces the two readings agree. *)
Example gpu_factor_usual_entry :
  second_space_field "RTX 3060 12GB" = "3060" /\
  second_whitespace_token "RTX 3060 12GB" = "3060" /\
  gpu_bonus "NVIDIA GeForce RTX 3060" ["Apple M1 Pro"; "RTX 3060 12GB"] = 2 /\
  gpu_bonus "AMD Radeon RX 6800" ["Apple M1 Pro"; "RTX 3060 12GB"] = 0.
Proof. repeat split; reflexivity. Qed.

End Scoring.

(* ================================================================= *)
(** * Properties of filtering *)

Section Filtering.

Lemma filter_twice {A} (f g : A -> bool) (l : list A) :
  filter f (filter g l) = filter (fun x => g x && f x) l.
Proof.
  induction l as [|x xs IH]; simpl; [reflexivity|].
  destruct (g x); simpl; [destruct (f x)|]; now rewrite IH.
Qed.

Lemma filter_pointwise {A} (f g : A -> bool) (l : list A) :
  (forall x, f x = g x) -> filter f l = filter g l.
Proof.
  intros E. induction l as [|x xs IH]; simpl; [reflexivity|].
  now rewrite E, IH.
Qed.

Lemma filter_all {A} (l : list A) : filter (fun _ => true) l = l.
Proof. induction l as [|x xs IH]; simpl; congruence. Qed.

(** Each optional filter is a [filter] by its criterion, read as true when
    the criterion is empty. *)
Lemma purposeFilter_filter (p : string) (l : list ModelRecord) :
  purposeFilter p l = filter (fun m => negb (truthy p) || purpose_matches p m) l.
Proof.
  unfold purposeFilter. destruct (truthy p); simpl; [reflexivity|].
  now rewrite filter_all.
Qed.

Lemma toolsFilter_filter (tools : string) (l : list ModelRecord) :
  toolsFilter tools l =
  filter (fun m => negb (truthy tools) || tools_matches (tools =? "true")%string m) l.
Proof.
  unfold toolsFilter. destruct (truthy tools); simpl; [reflexivity|].
  now rewrite filter_all.
Qed.

Lemma searchFilter_filter (search : string) (l : list ModelRecord) :
  searchFilter search l =
  filter (fun m => negb (truthy search) || search_matches search m) l.
Proof.
  unfold searchFilter. destruct (truthy search); simpl; [reflexivity|].
  now rewrite filter_all.
Qed.

Ltac by_passes :=
  rewrite ?purposeFilter_filter, ?toolsFilter_filter, ?searchFilter_filter,
    !filter_twice;
  apply filter_pointwise; intros m; unfold passes;
  destruct (negb (truthy _) || purpose_matches _ m),
           (negb (truthy _) || tools_matches _ m),
           (negb (truthy _) || search_matches _ m); reflexivity.

Lemma applyFilters_passes (search p tools : string) (l : list ModelRecord) :
  applyFilters search p tools l = filter (passes search p tools) l.
Proof. unfold applyFilters. by_passes. Qed.

(** C6: the three filters give the same sequence in each of the six
    orders, namely the records that satisfy all three criteria, in catalog
    order; and an empty criterion filters nothing out. *)
Theorem filters_commute (search p tools : string) (l : list ModelRecord) :
  let P := purposeFilter p in
  let T := toolsFilter tools in
  let S := searchFilter search in
  let all := filter (passes search p tools) l in
  S (T (P l)) = all /\ T (S (P l)) = all /\
  S (P (T l)) = all /\ P (S (T l)) = all /\
  T (P (S l)) = all /\ P (T (S l)) = all /\
  applyFilters search p tools l = all /\
  purposeFilter "" l = l /\ toolsFilter "" l = l /\ searchFilter "" l = l /\
  (forall m, passes "" "" "" m = true).
Proof.
  cbv zeta.
  repeat match goal with |- _ /\ _ => split end;
    try reflexivity; try by_passes.
  apply applyFilters_passes.
Qed.

End Filtering.

(* ================================================================= *)
(** * Properties of ranking *)

Section Ranking.

Lemma sort_insert_perm {A} (cmp : A -> A -> Z) (x : A) (l : list A) :
  Permutation (sort_insert cmp x l) (x :: l).
Proof.
  induction l as [|y ys IH]; simpl; [apply Permutation_refl|].
  destruct (cmp x y <=? 0); [apply Permutation_refl|].
  eapply perm_trans; [apply perm_skip, IH | apply perm_swap].
Qed.

Lemma sort_perm {A} (cmp : A -> A -> Z) (l : list A) :
  Permutation (sort cmp l) l.
Proof.
  induction l as [|x xs IH]; simpl; [apply perm_nil|].
  eapply perm_trans; [apply sort_insert_perm | now apply perm_skip].
Qed.

Lemma sort_length {A} (cmp : A -> A -> Z) (l : list A) :
  List.length (sort cmp l) = List.length l.
Proof. apply Permutation_length, sort_perm. Qed.

Lemma sort_insert_sorted (x : ScoredRecord) (l : list ScoredRecord) :
  StronglySorted at_least l ->
  StronglySorted at_least (sort_insert by_score_desc x l).
Proof.
  induction 1 as [|y ys Hs IH Hall]; simpl.
  - repeat constructor.
  - unfold by_score_desc at 1. destruct (Z.leb_spec (score y - score x) 0) as [Hle|Hgt].
    + constructor; [now constructor|].
      constructor; [unfold at_least; lia|].
      eapply Forall_impl; [|exact Hall]. unfold at_least. intros z Hz. lia.
    + constructor; [exact IH|].
      eapply Permutation_Forall; [apply Permutation_sym, sort_insert_perm|].
      constructor; [unfold at_least; lia | exact Hall].
Qed.

Lemma sort_sorted (l : list ScoredRecord) :
  StronglySorted at_least (sort by_score_desc l).
Proof.
  induction l as [|x xs IH]; simpl; [constructor|].
  now apply sort_insert_sorted.
Qed.

(** Insertion never moves a record past one of the same score. *)
Lemma sort_insert_same_score (s : Z) (x : ScoredRecord) (l : list ScoredRecord) :
  filter (fun r => score r =? s) (sort_insert by_score_desc x l) =
  filter (fun r => score r =? s) (x :: l).
Proof.
  induction l as [|y ys IH]; [reflexivity|].
  cbn [sort_insert]. unfold by_score_desc at 1.
  destruct (Z.leb_spec (score y - score x) 0) as [Hle|Hgt]; [reflexivity|].
  cbn [filter] in *. rewrite IH.
  destruct (Z.eqb_spec (score x) s), (Z.eqb_spec (score y) s);
    try reflexivity. lia.
Qed.

Lemma sort_same_score (s : Z) (l : list ScoredRecord) :
  filter (fun r => score r =? s) (sort by_score_desc l) =
  filter (fun r => score r =? s) l.
Proof.
  induction l as [|x xs IH]; [reflexivity|].
  cbn [sort]. rewrite sort_insert_same_score. cbn [filter].
  now rewrite IH.
Qed.

(** Stable sorting by descending score has one result: a list in
    descending order is determined by its records of each score, taken in
    order.  So any [out] that a stable [Array.prototype.sort] may return
    for the comparator of line 215 is the list [sort] computes. *)
Lemma descending_determined (l1 l2 : list ScoredRecord) :
  StronglySorted at_least l1 -> StronglySorted at_least l2 ->
  (forall s, filter (fun r => score r =? s) l1 =
             filter (fun r => score r =? s) l2) ->
  l1 = l2.
Proof.
  intros H1. revert l2. induction H1 as [|x l1 Hs1 IH Hx]; intros l2 H2 Hf.
  - destruct l2 as [|y l2]; [reflexivity|].
    specialize (Hf (score y)). cbn [filter] in Hf.
    rewrite Z.eqb_refl in Hf. discriminate.
  - destruct l2 as [|y l2].
    + specialize (Hf (score x)). cbn [filter] in Hf.
      rewrite Z.eqb_refl in Hf. discriminate.
    + apply StronglySorted_inv in H2 as (Hs2 & Hy).
      assert (Hxy : score x = score y).
      { assert (Hx2 : In x (y :: l2)).
        { apply (proj1 (filter_In (fun r => score r =? score x) x (y :: l2))).
          rewrite <- Hf. cbn [filter]. rewrite Z.eqb_refl. now left. }
        assert (Hy1 : In y (x :: l1)).
        { apply (proj1 (filter_In (fun r => score r =? score y) y (x :: l1))).
          rewrite Hf. cbn [filter]. rewrite Z.eqb_refl. now left. }
        rewrite Forall_forall in Hx, Hy. unfold at_least in Hx, Hy.
        destruct Hx2 as [->|Hx2]; [reflexivity|].
        destruct Hy1 as [->|Hy1]; [reflexivity|].
        specialize (Hx y Hy1). specialize (Hy x Hx2). lia. }
      assert (Exy : x = y).
      { specialize (Hf (score x)). cbn [filter] in Hf.
        rewrite <- Hxy, Z.eqb_refl in Hf. congruence. }
      subst y. f_equal. apply IH; [exact Hs2|].
      intros s. specialize (Hf s). cbn [filter] in Hf.
      destruct (score x =? s); congruence.
Qed.

Lemma stable_sort_unique (input out : list ScoredRecord) :
  StronglySorted at_least out ->
  (forall s, filter (fun r => score r =? s) out =
             filter (fun r => score r =? s) input) ->
  out = sort by_score_desc input.
Proof.
  intros Hs Hf. apply descending_determined; [exact Hs|apply sort_sorted|].
  intros s. now rewrite Hf, sort_same_score.
Qed.

Lemma before_filter {A} (f : A -> bool) (a b : A) (l : list A) :
  f a = true -> f b = true -> before a b l -> before a b (filter f l).
Proof.
  intros Ha Hb (l1 & l2 & l3 & ->).
  exists (filter f l1), (filter f l2), (filter f l3).
  rewrite filter_app. cbn [filter]. rewrite Ha, filter_app. cbn [filter].
  now rewrite Hb.
Qed.

Lemma filter_eq_cons {A} (f : A -> bool) (l : list A) (a : A) (r : list A) :
  filter f l = a :: r ->
  exists l1 l2, l = (l1 ++ a :: l2)%list /\ filter f l2 = r.
Proof.
  induction l as [|x xs IH]; cbn [filter]; [discriminate|].
  destruct (f x) eqn:E.
  - intros [= -> <-]. now exists [], xs.
  - intros H. destruct (IH H) as (l1 & l2 & -> & H2).
    now exists (x :: l1), l2.
Qed.

Lemma filter_eq_app_cons {A} (f : A -> bool) (l q : list A) (a : A) (r : list A) :
  filter f l = (q ++ a :: r)%list ->
  exists l1 l2, l = (l1 ++ a :: l2)%list /\ filter f l2 = r.
Proof.
  revert l. induction q as [|y q IH]; intros l H.
  - now apply filter_eq_cons in H.
  - cbn [app] in H. apply filter_eq_cons in H as (l1 & l2 & -> & H2).
    destruct (IH _ H2) as (m1 & m2 & -> & H3).
    exists (l1 ++ y :: m1)%list, m2. split; [|exact H3].
    now rewrite <- app_assoc.
Qed.

Lemma filter_before {A} (f : A -> bool) (a b : A) (l : list A) :
  before a b (filter f l) -> before a b l.
Proof.
  intros (q1 & q2 & q3 & H).
  apply filter_eq_app_cons in H as (l1 & l2 & -> & H2).
  apply filter_eq_app_cons in H2 as (m1 & m2 & -> & _).
  now exists l1, m1, m2.
Qed.

Lemma before_map {A B} (f : A -> B) (a b : A) (l : list A) :
  before a b l -> before (f a) (f b) (map f l).
Proof.
  intros (l1 & l2 & l3 & ->).
  exists (map f l1), (map f l2), (map f l3).
  now rewrite map_app, (map_cons f a), map_app.
Qed.

Lemma scoreAndSort_rank (filtered : list ModelRecord) (hw : option HardwareProfile) :
  scoreAndSort filtered hw = Normal (rank filtered hw).
Proof.
  unfold scoreAndSort, rank.
  rewrite (mapM_normal _ (scored_of hw)); [reflexivity|].
  intros m. now rewrite score_total.
Qed.

Lemma rank_scores (filtered : list ModelRecord) (hw : option HardwareProfile) :
  Forall (fun r => r = scored_of hw (model r)) (rank filtered hw).
Proof.
  eapply Permutation_Forall; [apply Permutation_sym, sort_perm|].
  apply Forall_forall. intros r Hr. apply in_map_iff in Hr as (m & <- & _).
  reflexivity.
Qed.

(** C3: the ranking never throws; its result is the filtered records with
    their scores, in descending order of score, and the sort is stable:
    the records of any one score come out in the order in which they came
    in, so that of two records with equal scores the one that is earlier
    in the input (and therefore in the catalog) is earlier in the output. *)
Theorem ranking_is_stable_descending (filtered : list ModelRecord)
    (hw : option HardwareProfile) :
  scoreAndSort filtered hw = Normal (rank filtered hw) /\
  Permutation (rank filtered hw) (map (scored_of hw) filtered) /\
  StronglySorted at_least (rank filtered hw) /\
  (forall s, filter (fun r => score r =? s) (rank filtered hw) =
             filter (fun r => score r =? s) (map (scored_of hw) filtered)) /\
  (forall a b, score_value a hw = score_value b hw ->
     before a b filtered ->
     before (scored_of hw a) (scored_of hw b) (rank filtered hw)) /\
  (forall search p tools catalog a b,
     filtered = applyFilters search p tools catalog ->
     passes search p tools a = true -> passes search p tools b = true ->
     score_value a hw = score_value b hw ->
     before a b catalog ->
     before (scored_of hw a) (scored_of hw b) (rank filtered hw)).
Proof.
  assert (Hst : forall a b, score_value a hw = score_value b hw ->
     before a b filtered ->
     before (scored_of hw a) (scored_of hw b) (rank filtered hw)).
  { intros a b Heq Hab.
    apply (filter_before (fun r => score r =? score_value a hw)).
    unfold rank. rewrite sort_same_score.
    apply before_filter.
    - simpl. apply Z.eqb_refl.
    - simpl. rewrite Heq. apply Z.eqb_refl.
    - now apply before_map. }
  split; [apply scoreAndSort_rank|].
  split; [apply sort_perm|].
  split; [apply sort_sorted|].
  split; [intros s; apply sort_same_score|].
  split; [exact Hst|].
  intros search p tools catalog a b -> Ha Hb Heq Hab.
  apply Hst; [exact Heq|].
  rewrite applyFilters_passes. now apply before_filter.
Qed.

End Ranking.

(* ================================================================= *)
(** * Properties of rendering and pagination *)

Section Pagination.

Lemma filterAndRender_result (models : list ModelRecord)
    (hw : option HardwareProfile) (d : Dom) :
  filterAndRender models hw d = Normal (render_result (ranked_of models hw d) d).
Proof.
  unfold filterAndRender. rewrite scoreAndSort_rank. cbn [bind].
  fold (ranked_of models hw d).
  destruct (ranked_of models hw d) as [|top r]; [reflexivity|].
  unfold render_result, element.
  cbn [List.length Nat.eqb nth_error method bind top_score].
  destruct (PAGE_SIZE <? S (List.length r))%nat; reflexivity.
Qed.

Lemma slice_nil {A} (l : list A) (a b : nat) :
  (b <= a)%nat -> slice l a b = [].
Proof.
  intros H. unfold slice. replace (b - a)%nat with 0%nat by lia. reflexivity.
Qed.

Lemma slice_past_end {A} (l : list A) (a b : nat) :
  (List.length l <= a)%nat -> slice l a b = [].
Proof.
  intros H. unfold slice. rewrite skipn_all2 by exact H. apply firstn_nil.
Qed.

Lemma slice_length {A} (l : list A) (a b : nat) :
  List.length (slice l a b) = Nat.min (b - a) (List.length l - a).
Proof. unfold slice. now rewrite length_firstn, length_skipn. Qed.

Lemma slice_extend {A} (l : list A) (a b c : nat) :
  (a <= b <= c)%nat ->
  (slice l a b ++ slice l b c)%list = slice l a c.
Proof.
  intros H. unfold slice.
  replace (skipn b l) with (skipn (b - a) (skipn a l))
    by (rewrite skipn_skipn; f_equal; lia).
  replace (c - a)%nat with ((b - a) + (c - b))%nat by lia.
  generalize (skipn a l) (b - a)%nat (c - b)%nat. clear.
  intros l n m. revert l. induction n as [|n IH]; intros l; [reflexivity|].
  destruct l as [|x l]; cbn [firstn skipn Nat.add app].
  - now rewrite firstn_nil.
  - now rewrite IH.
Qed.

Lemma slice_clip {A} (l : list A) (a b : nat) :
  slice l a b = slice l a (Nat.min b (List.length l)).
Proof.
  unfold slice.
  destruct (Nat.le_gt_cases b (List.length l)) as [H|H].
  - now rewrite Nat.min_l.
  - rewrite Nat.min_r by lia.
    rewrite !firstn_all2; try reflexivity; rewrite length_skipn; lia.
Qed.

Lemma revealed_cards_length (r : list ScoredRecord) (c : nat) :
  (Nat.min PAGE_SIZE (List.length r) <= c <= List.length r)%nat ->
  List.length (revealed_cards r c) = c.
Proof.
  intros H. unfold revealed_cards.
  rewrite length_app, !length_map, length_firstn, slice_length. lia.
Qed.

Lemma revealed_cards_models (r : list ScoredRecord) (c : nat) :
  (Nat.min PAGE_SIZE (List.length r) <= c <= List.length r)%nat ->
  map card_model (revealed_cards r c) = map model (firstn c r).
Proof.
  intros H. unfold revealed_cards.
  rewrite map_app, !map_map. cbn [renderCard card_model].
  rewrite <- map_app. f_equal.
  destruct (Nat.le_gt_cases c PAGE_SIZE) as [Hc|Hc].
  - rewrite slice_nil, app_nil_r by exact Hc.
    destruct (Nat.le_gt_cases (List.length r) PAGE_SIZE) as [Hl|Hl].
    + rewrite !firstn_all2; try reflexivity; lia.
    + replace c with PAGE_SIZE by lia. reflexivity.
  - change (firstn PAGE_SIZE r) with (slice r 0 (PAGE_SIZE - 0) ).
    change (PAGE_SIZE - 0)%nat with PAGE_SIZE.
    rewrite slice_extend by lia. unfold slice. now rewrite Nat.sub_0_r.
Qed.

Lemma find_none_fresh (n : nat) (ws : list ShowMore) :
  Forall (fun w => (node w < n)%nat) ws ->
  find (fun w => (node w =? n)%nat) ws = None.
Proof.
  induction 1 as [|w ws Hw _ IH]; [reflexivity|]. cbn [find].
  destruct (Nat.eqb_spec (node w) n); [lia|exact IH].
Qed.

Lemma find_app_last {A} (f : A -> bool) (l : list A) (x : A) :
  find f l = None -> f x = true -> find f (l ++ [x]) = Some x.
Proof.
  induction l as [|y l IH]; cbn [find app]; intros Hn Hx.
  - now rewrite Hx.
  - destruct (f y); [discriminate|now apply IH].
Qed.

Lemma find_none_filter_id {A} (f : A -> bool) (l : list A) :
  find f l = None -> filter (fun x => negb (f x)) l = l.
Proof.
  induction l as [|y l IH]; cbn [find filter]; [reflexivity|].
  destruct (f y); [discriminate|]. intros H. cbn [negb]. now rewrite IH.
Qed.

Lemma find_filter_removed (n : nat) (ws : list ShowMore) :
  find (fun w => (node w =? n)%nat)
       (filter (fun w => negb (node w =? n)%nat) ws) = None.
Proof.
  induction ws as [|w ws IH]; [reflexivity|]. cbn [filter].
  destruct (node w =? n)%nat eqn:E; cbn [negb]; [exact IH|].
  cbn [find]. now rewrite E.
Qed.

Lemma find_retitled (n : nat) (t : string) (ws : list ShowMore) (w : ShowMore) :
  find (fun w => (node w =? n)%nat) ws = Some w ->
  find (fun w => (node w =? n)%nat)
    (map (fun w => if (node w =? n)%nat
                   then {| node := node w; button_text := t;
                           closure_scored := closure_scored w;
                           closure_topScore := closure_topScore w |}
                   else w) ws)
  = Some {| node := node w; button_text := t;
            closure_scored := closure_scored w;
            closure_topScore := closure_topScore w |}.
Proof.
  induction ws as [|v ws IH]; cbn [find map]; [discriminate|].
  destruct (node v =? n)%nat eqn:E.
  - intros [= ->]. cbn [node]. now rewrite E.
  - rewrite E. exact IH.
Qed.

Lemma best_match_later (top : Z) (sr : ScoredRecord) :
  best_match top false sr = false.
Proof. unfold best_match. apply andb_false_r. Qed.

(** A render pass on a sound page opens its own session. *)
Lemma session_start (r : list ScoredRecord) (d : Dom) :
  dom_ok d ->
  in_session r (fresh d) (Nat.min PAGE_SIZE (List.length r)) (render_result r d).
Proof.
  intros Hok. unfold in_session.
  split; [|split; [lia|]].
  - unfold revealed_cards. rewrite slice_nil, app_nil_r by lia.
    destruct r as [|top r]; [reflexivity|].
    unfold render_result.
    destruct (PAGE_SIZE <? _)%nat; reflexivity.
  - destruct r as [|top r]; [now apply find_none_fresh|].
    unfold render_result.
    destruct (Nat.ltb_spec PAGE_SIZE (List.length (top :: r))) as [Hl|Hl].
    + rewrite Nat.min_l by lia.
      destruct (Nat.ltb_spec PAGE_SIZE (List.length (top :: r))); [|lia].
      eexists. split; [|split; [|split]].
      * cbn [append_show_more show_more append_cards set_summary clear_list fresh].
        apply find_app_last; [now apply find_none_fresh|].
        cbn [node]. apply Nat.eqb_refl.
      * reflexivity.
      * reflexivity.
      * reflexivity.
    + rewrite Nat.min_r by lia.
      rewrite Nat.ltb_irrefl. now apply find_none_fresh.
Qed.

(** A click on the session's button reveals the next batch. *)
Lemma session_step (r : list ScoredRecord) (n c : nat) (d : Dom) :
  in_session r n c d -> (c < List.length r)%nat ->
  in_session r n (Nat.min (c + PAGE_SIZE) (List.length r)) (click n d).
Proof.
  intros (Hcards & Hc & Hw) Hlt.
  destruct (Nat.ltb_spec c (List.length r)) as [_|]; [|lia].
  destruct Hw as (w & Hfind & Hnode & Hr & Htop).
  assert (Hten : (PAGE_SIZE <= c)%nat) by lia.
  assert (Hlen : List.length (models_list d) = c)
    by (rewrite Hcards; now apply revealed_cards_length).
  unfold click. rewrite Hfind, Hr, Htop, Hnode. unfold showMoreClick.
  rewrite Hlen.
  assert (Hzero : (c =? 0)%nat = false)
    by (apply Nat.eqb_neq; unfold PAGE_SIZE in Hten; lia).
  rewrite Hzero.
  set (c' := Nat.min (c + PAGE_SIZE) (List.length r)).
  assert (Hnew : (models_list d ++
                  map (fun sr => renderCard (best_match (top_score r) false sr) sr)
                    (slice r c (c + PAGE_SIZE)))%list = revealed_cards r c').
  { rewrite Hcards. unfold revealed_cards. rewrite <- app_assoc. f_equal.
    rewrite (map_ext
               (fun sr => renderCard (best_match (top_score r) false sr) sr)
               (renderCard false))
      by (intros sr; now rewrite best_match_later).
    rewrite <- map_app. f_equal.
    rewrite slice_extend by lia. apply slice_clip. }
  assert (Hlen' : List.length (revealed_cards r c') = c')
    by (apply revealed_cards_length; subst c'; lia).
  cbn [append_cards models_list]. rewrite Hnew, Hlen'.
  destruct (Z.leb_spec (Z.of_nat (List.length r) - Z.of_nat c') 0) as [Hrem|Hrem].
  - split; [exact Hnew|]. split; [subst c'; lia|].
    destruct (Nat.ltb_spec c' (List.length r)) as [|_]; [lia|].
    cbn [remove_node show_more]. apply find_filter_removed.
  - split; [exact Hnew|]. split; [subst c'; lia|].
    destruct (Nat.ltb_spec c' (List.length r)) as [_|]; [|lia].
    cbn [set_button_text show_more].
    eexists. split.
    + cbn [append_cards show_more]. apply (find_retitled n _ _ w Hfind).
    + cbn [node closure_scored closure_topScore]. auto.
Qed.

(** Once everything is revealed the button is gone: a request is a no-op,
    and so would be a run of the handler itself. *)
Lemma session_done (r : list ScoredRecord) (n : nat) (d : Dom) :
  in_session r n (List.length r) d ->
  click n d = d /\ showMoreClick r (top_score r) n d = d.
Proof.
  intros (Hcards & Hc & Hw).
  rewrite Nat.ltb_irrefl in Hw.
  split; [unfold click; now rewrite Hw|].
  assert (Hlen : List.length (models_list d) = List.length r)
    by (rewrite Hcards; now apply revealed_cards_length).
  unfold showMoreClick. rewrite Hlen.
  rewrite slice_past_end by lia. cbn [map append_cards models_list].
  rewrite app_nil_r, Hlen, Z.sub_diag. cbn [Z.leb Z.compare].
  unfold remove_node. cbn.
  rewrite (find_none_filter_id _ _ Hw), app_nil_r.
  now destruct d.
Qed.

Lemma session_clicks (r : list ScoredRecord) (n : nat) (k c : nat) (d : Dom) :
  in_session r n c d ->
  in_session r n (Nat.min (c + PAGE_SIZE * k) (List.length r)) (clicks k n d).
Proof.
  revert c d. induction k as [|k IH]; intros c d H.
  - cbn [clicks]. replace (Nat.min _ _) with c; [exact H|].
    destruct H as (_ & Hc & _). lia.
  - cbn [clicks].
    destruct (Nat.lt_ge_cases c (List.length r)) as [Hlt|Hge].
    + apply session_step in H; [|exact Hlt]. apply IH in H.
      replace (Nat.min (c + PAGE_SIZE * S k) (List.length r))
        with (Nat.min (Nat.min (c + PAGE_SIZE) (List.length r) + PAGE_SIZE * k)
                (List.length r)) by lia.
      exact H.
    + assert (c = List.length r) as -> by (destruct H as (_ & Hc & _); lia).
      destruct (session_done r n d H) as (-> & _).
      apply IH in H.
      replace (Nat.min (List.length r + PAGE_SIZE * S k) (List.length r))
        with (Nat.min (List.length r + PAGE_SIZE * k) (List.length r)) by lia.
      exact H.
Qed.


(** The page stays sound under render passes and clicks. *)
Lemma dom_ok_render (r : list ScoredRecord) (d : Dom) :
  dom_ok d -> dom_ok (render_result r d).
Proof.
  unfold dom_ok. intros H. destruct r as [|top r]; [exact H|].
  unfold render_result. destruct (PAGE_SIZE <? _)%nat; [|exact H].
  cbn [append_show_more show_more fresh append_cards set_summary clear_list].
  apply Forall_app. split.
  - eapply Forall_impl; [|exact H]. cbn beta. intros w Hw. lia.
  - constructor; [cbn [node]; lia|constructor].
Qed.

Lemma dom_ok_click (n : nat) (d : Dom) : dom_ok d -> dom_ok (click n d).
Proof.
  unfold dom_ok, click. intros H.
  destruct (find _ (show_more d)) as [w|]; [|exact H].
  unfold showMoreClick. destruct (_ <=? 0).
  - cbn [remove_node show_more fresh append_cards].
    apply Forall_forall. intros v Hv. apply filter_In in Hv as (Hv & _).
    revert v Hv. now apply Forall_forall.
  - cbn [set_button_text show_more fresh append_cards].
    apply Forall_forall. intros v Hv. apply in_map_iff in Hv as (u & <- & Hu).
    rewrite Forall_forall in H. specialize (H u Hu).
    now destruct (node u =? node w)%nat.
Qed.

Lemma dom_ok_initial : dom_ok initial_dom.
Proof. constructor. Qed.

Lemma dom_ok_type_search (t : string) (d : Dom) :
  dom_ok d -> dom_ok (type_search t d).
Proof. exact (fun H => H). Qed.

Lemma dom_ok_filterAndRender (models : list ModelRecord)
    (hw : option HardwareProfile) (d d' : Dom) :
  dom_ok d -> filterAndRender models hw d = Normal d' -> dom_ok d'.
Proof.
  intros Hok. rewrite filterAndRender_result. intros [= <-].
  now apply dom_ok_render.
Qed.

Lemma top_score_is_max (r : list ScoredRecord) (sr : ScoredRecord) :
  StronglySorted at_least r -> In sr r ->
  top_score r <= score sr <-> Forall (fun x => score x <= score sr) r.
Proof.
  intros Hs Hin. destruct r as [|top r]; [destruct Hin|].
  cbn [top_score]. apply StronglySorted_inv in Hs as (_ & Hall).
  split.
  - intros Hle. constructor; [exact Hle|].
    eapply Forall_impl; [|exact Hall]. unfold at_least. intros x Hx. lia.
  - intros H. now apply Forall_inv in H.
Qed.

Lemma ranked_sorted (models : list ModelRecord) (hw : option HardwareProfile)
    (d : Dom) :
  StronglySorted at_least (ranked_of models hw d).
Proof. apply sort_sorted. Qed.

Lemma session_of_pass (models : list ModelRecord) (hw : option HardwareProfile)
    (d0 : Dom) (k : nat) :
  dom_ok d0 ->
  let r := ranked_of models hw d0 in
  in_session r (fresh d0)
    (Nat.min (PAGE_SIZE * (k + 1)) (List.length r))
    (clicks k (fresh d0) (render_result r d0)).
Proof.
  intros Hok r.
  pose proof (session_clicks r (fresh d0) k _ _ (session_start r d0 Hok)) as H.
  replace (Nat.min (PAGE_SIZE * (k + 1)) (List.length r))
    with (Nat.min (Nat.min PAGE_SIZE (List.length r) + PAGE_SIZE * k)
            (List.length r))
    by (unfold PAGE_SIZE; lia).
  exact H.
Qed.

(** The cursor of one render pass, followed through the button that pass
    created: after a pass over [total] ranked records the page shows
    [min 10 total] of them; each click on the pass's show-more button
    brings the count to [min (count + 10) total]; the count never exceeds
    [total] and reaches it after finitely many clicks, the page then
    showing exactly the ranked records in order; and from there a further
    request leaves the whole page as it is. *)
Theorem reveal_cursor (models : list ModelRecord) (hw : option HardwareProfile)
    (d0 : Dom) :
  dom_ok d0 ->
  let r := ranked_of models hw d0 in
  let total := List.length r in
  let n := fresh d0 in
  exists d1,
    filterAndRender models hw d0 = Normal d1 /\
    let revealed k := List.length (models_list (clicks k n d1)) in
    PAGE_SIZE = 10%nat /\
    revealed 0%nat = Nat.min PAGE_SIZE total /\
    (forall k, revealed (S k) = Nat.min (revealed k + PAGE_SIZE) total) /\
    (forall k, (revealed k <= total)%nat) /\
    (exists k, revealed k = total) /\
    (forall k, map card_model (models_list (clicks k n d1)) =
               map model (firstn (revealed k) r)) /\
    (forall k, revealed k = total ->
       click n (clicks k n d1) = clicks k n d1 /\
       showMoreClick r (top_score r) n (clicks k n d1) = clicks k n d1).
Proof.
  intros Hok r total n.
  exists (render_result r d0). split; [apply filterAndRender_result|].
  pose proof (fun k => session_of_pass models hw d0 k Hok) as Hs.
  fold r n in Hs. cbv zeta in Hs.
  assert (Hlen : forall k, List.length (models_list (clicks k n (render_result r d0)))
                           = Nat.min (PAGE_SIZE * (k + 1)) total).
  { intros k. destruct (Hs k) as (Hc & Hb & _). rewrite Hc.
    now apply revealed_cards_length. }
  cbv zeta.
  split; [reflexivity|]. split; [|split; [|split; [|split; [|split]]]].
  - rewrite Hlen. unfold PAGE_SIZE. lia.
  - intros k. rewrite !Hlen. unfold PAGE_SIZE. lia.
  - intros k. rewrite Hlen. lia.
  - exists total. rewrite Hlen. unfold PAGE_SIZE. lia.
  - intros k. rewrite Hlen. destruct (Hs k) as (Hc & Hb & _). rewrite Hc.
    now apply revealed_cards_models.
  - intros k Hk. rewrite Hlen in Hk. specialize (Hs k).
    fold total in Hs. rewrite Hk in Hs. now apply session_done.
Qed.

Lemma reveal_cursor_witness :
  let r := ranked_of (repeat record_A 25) (Some profile_M) initial_dom in
  let total := List.length r in
  let n := fresh initial_dom in
  exists d1,
    filterAndRender (repeat record_A 25) (Some profile_M) initial_dom = Normal d1 /\
    let revealed k := List.length (models_list (clicks k n d1)) in
    PAGE_SIZE = 10%nat /\
    revealed 0%nat = Nat.min PAGE_SIZE total /\
    (forall k, revealed (S k) = Nat.min (revealed k + PAGE_SIZE) total) /\
    (forall k, (revealed k <= total)%nat) /\
    (exists k, revealed k = total) /\
    (forall k, map card_model (models_list (clicks k n d1)) =
               map model (firstn (revealed k) r)) /\
    (forall k, revealed k = total ->
       click n (clicks k n d1) = clicks k n d1 /\
       showMoreClick r (top_score r) n (clicks k n d1) = clicks k n d1).
Proof.
  apply (reveal_cursor (repeat record_A 25) (Some profile_M) initial_dom).
  constructor.
Defined.

(** The scenario of the specification: 25 records show as 10, 20, 25, and
    a third request leaves 25. *)
Example reveal_25 :
  exists d1,
    filterAndRender (repeat record_A 25) (Some profile_M) initial_dom = Normal d1 /\
    map (fun k => List.length (models_list (clicks k 0 d1))) [0; 1; 2; 3]%nat
      = [10; 20; 25; 25]%nat /\
    map (fun k => List.length (show_more (clicks k 0 d1))) [0; 1; 2; 3]%nat
      = [1; 1; 0; 0]%nat.
Proof. eexists. split; [reflexivity|]. split; reflexivity. Qed.

Lemma click_batch_unflagged (n : nat) (d : Dom) :
  models_list d <> [] ->
  exists batch,
    models_list (click n d) = (models_list d ++ batch)%list /\
    Forall (fun c => card_recommended c = false) batch.
Proof.
  intros Hne. unfold click.
  destruct (find _ (show_more d)) as [w|].
  - unfold showMoreClick.
    assert ((List.length (models_list d) =? 0)%nat = false) as ->
      by (destruct (models_list d); [contradiction|reflexivity]).
    exists (map (fun sr => renderCard
                             (best_match (closure_topScore w) false sr) sr)
              (slice (closure_scored w) (List.length (models_list d))
                 (List.length (models_list d) + PAGE_SIZE))).
    split; [destruct (_ <=? 0); reflexivity|].
    apply Forall_forall. intros c Hc.
    apply in_map_iff in Hc as (sr & <- & _).
    cbn [renderCard card_recommended]. apply best_match_later.
  - exists []. rewrite app_nil_r. split; [reflexivity|constructor].
Qed.

(** C1, as the code has it: for a render pass and the reveal batches of
    the show-more button that pass creates, the best-match chip is on
    exactly the records of the first page (the first [PAGE_SIZE] ranked
    records) whose score is the maximum of the result and positive; the
    cards those batches add never carry it, and no click at all puts it
    on a batch appended to a list that already holds a card (the test of
    line 372); and the pass and its button put it on no card when no
    score is positive, in particular when the result is empty. *)
Theorem best_match_on_first_page (models : list ModelRecord)
    (hw : option HardwareProfile) (d0 : Dom) :
  dom_ok d0 ->
  let r := ranked_of models hw d0 in
  let flag sr := best_match (top_score r) true sr in
  exists d1,
    filterAndRender models hw d0 = Normal d1 /\
    (forall k,
       models_list (clicks k (fresh d0) d1) =
       (map (fun sr => renderCard (flag sr) sr) (firstn PAGE_SIZE r) ++
        map (renderCard false)
          (slice r PAGE_SIZE (Nat.min (PAGE_SIZE * (k + 1)) (List.length r))))%list) /\
    (forall sr, In sr r ->
       flag sr = true <->
       Forall (fun x => score x <= score sr) r /\ 0 < score sr) /\
    (Forall (fun x => score x <= 0) r ->
     forall k, Forall (fun c => card_recommended c = false)
                 (models_list (clicks k (fresh d0) d1))) /\
    (forall n d, models_list d <> [] ->
       exists batch,
         models_list (click n d) = (models_list d ++ batch)%list /\
         Forall (fun c => card_recommended c = false) batch).
Proof.
  intros Hok r flag.
  exists (render_result r d0). split; [apply filterAndRender_result|].
  assert (Hcards : forall k,
    models_list (clicks k (fresh d0) (render_result r d0)) =
    revealed_cards r (Nat.min (PAGE_SIZE * (k + 1)) (List.length r))).
  { intros k. now destruct (session_of_pass models hw d0 k Hok) as (Hc & _). }
  split; [exact Hcards|]. split; [|split; [|exact click_batch_unflagged]].
  - intros sr Hin. unfold flag, best_match. rewrite andb_true_r, andb_true_iff.
    rewrite Z.leb_le, Z.ltb_lt.
    now rewrite (top_score_is_max r sr (ranked_sorted models hw d0) Hin).
  - intros Hall k. rewrite Hcards. unfold revealed_cards.
    apply Forall_app. split; apply Forall_forall; intros c Hc;
      apply in_map_iff in Hc as (sr & <- & Hsr); [|reflexivity].
    cbn [renderCard card_recommended]. unfold best_match.
    assert (Hin : In sr r).
    { rewrite <- (firstn_skipn PAGE_SIZE r). apply in_or_app. now left. }
    rewrite Forall_forall in Hall. specialize (Hall sr Hin).
    destruct (Z.ltb_spec 0 (score sr)); [lia|].
    now rewrite andb_false_r.
Qed.

Lemma best_match_on_first_page_witness :
  let r := ranked_of (repeat record_A 11) (Some profile_M) initial_dom in
  let flag sr := best_match (top_score r) true sr in
  exists d1,
    filterAndRender (repeat record_A 11) (Some profile_M) initial_dom = Normal d1 /\
    (forall k,
       models_list (clicks k (fresh initial_dom) d1) =
       (map (fun sr => renderCard (flag sr) sr) (firstn PAGE_SIZE r) ++
        map (renderCard false)
          (slice r PAGE_SIZE (Nat.min (PAGE_SIZE * (k + 1)) (List.length r))))%list) /\
    (forall sr, In sr r ->
       flag sr = true <->
       Forall (fun x => score x <= score sr) r /\ 0 < score sr) /\
    (Forall (fun x => score x <= 0) r ->
     forall k, Forall (fun c => card_recommended c = false)
                 (models_list (clicks k (fresh initial_dom) d1))) /\
    (forall n d, models_list d <> [] ->
       exists batch,
         models_list (click n d) = (models_list d ++ batch)%list /\
         Forall (fun c => card_recommended c = false) batch).
Proof.
  apply (best_match_on_first_page (repeat record_A 11) (Some profile_M) initial_dom).
  constructor.
Defined.

(** C1, as worded: with eleven records that all score 6, the eleventh is
    revealed by the first batch, has the maximum score, which is positive,
    and carries no chip. *)
Lemma best_match_later_batch_counterexample :
  exists d1 sr c,
    filterAndRender (repeat record_A 11) (Some profile_M) initial_dom = Normal d1 /\
    Forall (fun x => score x = 6)
      (ranked_of (repeat record_A 11) (Some profile_M) initial_dom) /\
    nth_error (ranked_of (repeat record_A 11) (Some profile_M) initial_dom) 10
      = Some sr /\
    nth_error (models_list (click 0 d1)) 10 = Some c /\
    card_model c = model sr /\
    score sr = 6 /\
    card_recommended c = false.
Proof.
  eexists. eexists. eexists.
  split; [reflexivity|]. split; [repeat constructor|].
  split; [reflexivity|]. split; [reflexivity|].
  repeat split; reflexivity.
Qed.

Lemma applyFilters_empty (search p tools : string) :
  applyFilters search p tools [] = [].
Proof.
  unfold applyFilters, searchFilter, toolsFilter, purposeFilter.
  destruct (truthy search), (truthy tools), (truthy p); reflexivity.
Qed.

Lemma ranked_of_empty (hw : option HardwareProfile) (d : Dom) :
  ranked_of [] hw d = [].
Proof. unfold ranked_of. now rewrite applyFilters_empty. Qed.

(** C9: a render pass over the empty catalog never throws, whatever the
    criteria and the profile: nothing passes the filters, the ranked array
    is empty, the list is cleared and the summary reads "No models match
    the current filters."; and the catalog that [init] keeps after a failed
    load is the empty one. *)
Theorem empty_catalog_no_match (hw : option HardwareProfile) (d : Dom) :
  (forall search p tools, applyFilters search p tools [] = []) /\
  scoreAndSort [] hw = Normal [] /\
  ranked_of [] hw d = [] /\
  filterAndRender [] hw d = Normal (set_summary no_match_text (clear_list d)) /\
  models_list (set_summary no_match_text (clear_list d)) = [] /\
  results_summary (set_summary no_match_text (clear_list d))
    = "No models match the current filters." /\
  (forall e, fst (init_models (Throw e) hw d) = []) /\
  fst (init_models (Normal []) hw d) = [].
Proof.
  split; [apply applyFilters_empty|]. split; [reflexivity|].
  split; [apply ranked_of_empty|].
  split; [rewrite filterAndRender_result, ranked_of_empty; reflexivity|].
  repeat split; reflexivity.
Qed.

(** The first pass of [init] is guarded by [models.length]: with an empty
    catalog the summary is written by the first pass a filter event
    triggers, not at load time. *)
Remark init_empty_catalog_skips_first_pass (hw : option HardwareProfile) (d : Dom)
    (e : string) :
  init_models (Normal []) hw d = ([], Normal d) /\
  init_models (Throw e) hw d = ([], Normal (set_list_text load_failed_text d)) /\
  filterAndRender [] hw (set_list_text load_failed_text d)
    = Normal (set_summary no_match_text (clear_list d)).
Proof.
  repeat split; try reflexivity.
  now rewrite filterAndRender_result, ranked_of_empty.
Qed.

(** C2: the scenario of the specification.  A record A hinting arm64 and
    8 GB and a record B hinting x86_64 and 32 GB, on an Apple-silicon
    profile with 16 GB, 8 cores and no GPU string, score 6 and -2; the
    ranking is [A, B] for either catalog order; and an unfiltered render
    pass shows A with the best-match chip and B without it. *)
Theorem scenario_two_records (A B : ModelRecord) (hw : HardwareProfile) (d : Dom) :
  hardware_profile A = Some hint_A ->
  hardware_profile B = Some hint_B ->
  isAppleSilicon hw = true ->
  approxMemoryGb hw = Some 16%Q ->
  cores hw = Some 8 ->
  gpu hw = None ->
  search_input d = "" -> purpose_select d = "" -> tools_select d = "" ->
  let ranked := [ {| model := A; score := 6 |}; {| model := B; score := -2 |} ] in
  let shown := [ {| card_model := A; card_recommended := true |};
                 {| card_model := B; card_recommended := false |} ] in
  scoreModelForHardware A (Some hw) = Normal 6 /\
  scoreModelForHardware B (Some hw) = Normal (-2) /\
  scoreAndSort [A; B] (Some hw) = Normal ranked /\
  scoreAndSort [B; A] (Some hw) = Normal ranked /\
  (exists d', filterAndRender [A; B] (Some hw) d = Normal d' /\
              models_list d' = shown) /\
  (exists d', filterAndRender [B; A] (Some hw) d = Normal d' /\
              models_list d' = shown).
Proof.
  intros HA HB Happle Hmem Hcores Hgpu Hs Hp Ht ranked shown.
  assert (SA : scoreModelForHardware A (Some hw) = Normal 6).
  { unfold scoreModelForHardware, score_arch, score_ram, score_cores, score_gpu.
    rewrite HA, Happle, Hmem, Hcores, Hgpu. reflexivity. }
  assert (SB : scoreModelForHardware B (Some hw) = Normal (-2)).
  { unfold scoreModelForHardware, score_arch, score_ram, score_cores, score_gpu.
    rewrite HB, Happle, Hmem, Hcores, Hgpu. reflexivity. }
  assert (VA : score_value A (Some hw) = 6) by (unfold score_value; now rewrite SA).
  assert (VB : score_value B (Some hw) = -2) by (unfold score_value; now rewrite SB).
  assert (RAB : rank [A; B] (Some hw) = ranked).
  { unfold rank, scored_of. cbn [map sort sort_insert].
    unfold by_score_desc. cbn [score]. rewrite VA, VB. reflexivity. }
  assert (RBA : rank [B; A] (Some hw) = ranked).
  { unfold rank, scored_of. cbn [map sort sort_insert].
    unfold by_score_desc. cbn [score]. rewrite VA, VB. reflexivity. }
  assert (Hnone : forall l, ranked_of l (Some hw) d = rank l (Some hw)).
  { intros l. unfold ranked_of. rewrite Hs, Hp, Ht. reflexivity. }
  split; [exact SA|]. split; [exact SB|].
  split; [now rewrite scoreAndSort_rank, RAB|].
  split; [now rewrite scoreAndSort_rank, RBA|].
  split; eexists; (split; [apply filterAndRender_result|]);
    rewrite Hnone, ?RAB, ?RBA; reflexivity.
Qed.

Lemma scenario_two_records_witness :
  let ranked := [ {| model := record_A; score := 6 |};
                  {| model := record_B; score := -2 |} ] in
  let shown := [ {| card_model := record_A; card_recommended := true |};
                 {| card_model := record_B; card_recommended := false |} ] in
  scoreModelForHardware record_A (Some profile_M) = Normal 6 /\
  scoreModelForHardware record_B (Some profile_M) = Normal (-2) /\
  scoreAndSort [record_A; record_B] (Some profile_M) = Normal ranked /\
  scoreAndSort [record_B; record_A] (Some profile_M) = Normal ranked /\
  (exists d', filterAndRender [record_A; record_B] (Some profile_M) initial_dom
                = Normal d' /\ models_list d' = shown) /\
  (exists d', filterAndRender [record_B; record_A] (Some profile_M) initial_dom
                = Normal d' /\ models_list d' = shown).
Proof.
  apply (scenario_two_records record_A record_B profile_M initial_dom);
    reflexivity.
Defined.

(** A render pass clears [#models-list] only: the show-more wrapper of an
    earlier pass stays under the parent node, and its handler still
    appends from the array of that pass.  Here the first pass ranks eleven
    records, the search box is then set to a text no record contains, the
    second pass shows the empty state, and a click on the first pass's
    button puts ten cards of the first ranking on the page.  The session
    properties above are about the button of the current pass. *)
Remark earlier_button_survives_next_pass :
  exists d1 d2,
    filterAndRender (repeat record_A 11) (Some profile_M) initial_dom = Normal d1 /\
    filterAndRender (repeat record_A 11) (Some profile_M) (type_search "zzz" d1)
      = Normal d2 /\
    ranked_of (repeat record_A 11) (Some profile_M) (type_search "zzz" d1) = [] /\
    models_list d2 = [] /\
    results_summary d2 = no_match_text /\
    List.length (show_more d2) = 1%nat /\
    List.length (models_list (click 0 d2)) = 10%nat.
Proof.
  eexists. eexists. split; [reflexivity|]. split; [reflexivity|].
  repeat split; reflexivity.
Qed.

(** C7: the run on which the code leaves the claim.  Eleven records are
    ranked and the first pass shows ten, with a show-more button.  The
    search box is set to a text no record contains and the second pass
    ranks nothing: the list is empty, zero of zero records are revealed.
    The first pass's button is still in the document; a click on it puts
    ten cards on the page, so the revealed count exceeds the total and a
    request made at full reveal changes the page. *)
Lemma leftover_button_reveals_past_total :
  exists d1 d2,
    filterAndRender (repeat record_A 11) (Some profile_M) initial_dom = Normal d1 /\
    filterAndRender (repeat record_A 11) (Some profile_M) (type_search "zzz" d1)
      = Normal d2 /\
    List.length (ranked_of (repeat record_A 11) (Some profile_M)
                   (type_search "zzz" d1)) = 0%nat /\
    List.length (models_list d2) = 0%nat /\
    map node (show_more d2) = [0%nat] /\
    List.length (models_list (click 0 d2)) = 10%nat /\
    click 0 d2 <> d2.
Proof.
  eexists. eexists. split; [reflexivity|]. split; [reflexivity|].
  repeat split; try reflexivity.
  intros H. apply (f_equal (fun d => List.length (models_list d))) in H.
  vm_compute in H. discriminate.
Qed.

End Pagination.

(* ================================================================= *)
(** * More properties of the built-ins *)

Section Strings.

Lemma append_assoc (a b c : string) : (a ++ b) ++ c = a ++ (b ++ c).
Proof. induction a as [|x a IH]; simpl; congruence. Qed.

Lemma append_empty_r (a : string) : a ++ "" = a.
Proof. induction a as [|x a IH]; simpl; congruence. Qed.

Lemma prefix_append (n b : string) : String.prefix n (n ++ b) = true.
Proof.
  induction n as [|x n IH]; simpl; [now destruct b|].
  destruct (ascii_dec x x); [exact IH|congruence].
Qed.

Lemma prefix_true (n h : string) :
  String.prefix n h = true -> exists b, h = n ++ b.
Proof.
  revert h. induction n as [|x n IH]; intros h H.
  - now exists h.
  - destruct h as [|y h]; simpl in H; [discriminate|].
    destruct (ascii_dec x y) as [->|]; [|discriminate].
    destruct (IH h H) as (b & ->). now exists b.
Qed.

Lemma includes_substring (h n : string) :
  includes h n = true <-> substring_of n h.
Proof.
  split.
  - induction h as [|c h IH]; cbn [includes]; intros H.
    + rewrite orb_false_r in H. apply prefix_true in H as (b & ->).
      now exists "", b.
    + apply orb_true_iff in H as [H|H].
      * apply prefix_true in H as (b & ->). now exists "", b.
      * destruct (IH H) as (a & b & ->). now exists (String c a), b.
  - intros (a & b & ->). induction a as [|c a IH].
    + cbn [append]. destruct (n ++ b) eqn:E; cbn [includes];
        rewrite <- E, prefix_append; reflexivity.
    + cbn [append includes]. rewrite IH. apply orb_true_r.
Qed.

Lemma substring_of_trans (a b c : string) :
  substring_of a b -> substring_of b c -> substring_of a c.
Proof.
  intros (x & y & ->) (u & v & ->).
  exists (u ++ x), (y ++ v). now rewrite !append_assoc.
Qed.

Lemma substring_of_refl (a : string) : substring_of a a.
Proof. exists "", "". cbn. now rewrite append_empty_r. Qed.

Lemma toLowerCase_append (a b : string) :
  toLowerCase (a ++ b) = toLowerCase a ++ toLowerCase b.
Proof. induction a as [|x a IH]; simpl; congruence. Qed.

Lemma substring_of_lower (a b : string) :
  substring_of a b -> substring_of (toLowerCase a) (toLowerCase b).
Proof.
  intros (x & y & ->). exists (toLowerCase x), (toLowerCase y).
  now rewrite !toLowerCase_append.
Qed.

Lemma trimStart_suffix (s : string) : exists a, s = a ++ trimStart s.
Proof.
  induction s as [|c s (a & IH)]; [now exists ""|]. cbn [trimStart].
  destruct (is_space c).
  - exists (String c a). cbn. now rewrite <- IH.
  - now exists "".
Qed.

Lemma trimEnd_prefix (s : string) : exists b, s = trimEnd s ++ b.
Proof.
  induction s as [|c s (b & IH)]; [now exists ""|]. cbn [trimEnd].
  destruct (trimEnd s) as [|x t] eqn:E.
  - destruct (is_space c).
    + now exists (String c s).
    + exists s. reflexivity.
  - exists b. cbn. cbn in IH. now rewrite <- IH.
Qed.

Lemma trim_substring (s : string) : substring_of (trim s) s.
Proof.
  unfold trim. destruct (trimStart_suffix s) as (a & Ha).
  destruct (trimEnd_prefix (trimStart s)) as (b & Hb).
  exists a, b. now rewrite <- Hb.
Qed.

Lemma lower_ascii_is_space (c : ascii) :
  is_space (lower_ascii c) = is_space c.
Proof. destruct c as [[] [] [] [] [] [] [] []]; reflexivity. Qed.

Lemma trimStart_all_space (s : string) : all_space s -> trimStart s = "".
Proof.
  unfold all_space. induction s as [|c s IH]; cbn; [reflexivity|].
  intros H. apply Forall_inv in H as Hc. apply Forall_inv_tail in H.
  rewrite Hc. now apply IH.
Qed.

Lemma all_space_lower (s : string) : all_space s -> all_space (toLowerCase s).
Proof.
  unfold all_space. induction s as [|c s IH]; cbn; intros H; [constructor|].
  apply Forall_inv in H as Hc. apply Forall_inv_tail in H.
  constructor; [now rewrite lower_ascii_is_space|now apply IH].
Qed.

Lemma trim_all_space (s : string) : all_space s -> trim (toLowerCase s) = "".
Proof.
  intros H. unfold trim.
  now rewrite (trimStart_all_space _ (all_space_lower _ H)).
Qed.

Lemma split_no_separator (sep : ascii) (s : string) :
  no_char sep s -> split sep s = [s].
Proof.
  unfold no_char. induction s as [|c s IH]; cbn; intros H; [reflexivity|].
  apply Forall_inv in H as Hc. apply Forall_inv_tail in H.
  destruct (Ascii.eqb_spec c sep); [contradiction|].
  now rewrite IH.
Qed.

Lemma split_first_field (sep : ascii) (u rest : string) :
  no_char sep u ->
  split sep (u ++ String sep rest) = u :: split sep rest.
Proof.
  unfold no_char. induction u as [|c u IH]; cbn; intros H.
  - now rewrite Ascii.eqb_refl.
  - apply Forall_inv in H as Hc. apply Forall_inv_tail in H.
    destruct (Ascii.eqb_spec c sep); [contradiction|].
    now rewrite IH.
Qed.

Lemma split_not_nil (sep : ascii) (s : string) : split sep s <> [].
Proof.
  destruct s as [|c s]; cbn; [discriminate|].
  destruct (Ascii.eqb c sep); [discriminate|].
  destruct (split sep s); discriminate.
Qed.

End Strings.

(* ================================================================= *)
(** * More properties of scoring *)

Section MoreScoring.

(** The score as the sum of its four factors; the GPU factor is the same
    for every profile with the same GPU string. *)
Lemma score_value_sum (m : ModelRecord) (hw : HardwareProfile) :
  let prof := or_else (hardware_profile m) empty_hint in
  exists g, (g = 0 \/ g = 2) /\
    (forall hw', gpu hw' = gpu hw ->
       score_value m (Some hw') =
       score_arch hw' prof 0 + score_ram hw' prof 0 + score_cores hw' prof 0 + g).
Proof.
  intros prof. destruct (score_gpu_total m hw) as (g & Hg & Hs).
  exists g. split; [exact Hg|]. intros hw' Hgpu.
  unfold score_value. cbn [scoreModelForHardware]. fold prof.
  assert (E : forall s, score_gpu m hw' s = score_gpu m hw s)
    by (intros s; unfold score_gpu; now rewrite Hgpu).
  rewrite E, Hs. rewrite score_cores_shift, score_ram_shift. lia.
Qed.

(** X1: a larger memory estimate never lowers a record's score. *)
Theorem more_memory_never_lowers_score (m : ModelRecord) (hw : HardwareProfile)
    (lo hi : Q) :
  (lo <= hi)%Q ->
  score_value m (Some (with_memory hw (Some lo))) <=
  score_value m (Some (with_memory hw (Some hi))).
Proof.
  intros Hle. destruct (score_value_sum m hw) as (g & _ & Hs).
  rewrite (Hs (with_memory hw (Some lo))), (Hs (with_memory hw (Some hi)))
    by reflexivity.
  change (score_arch (with_memory hw (Some hi))) with (score_arch (with_memory hw (Some lo))).
  change (score_cores (with_memory hw (Some hi))) with (score_cores (with_memory hw (Some lo))).
  assert (score_ram (with_memory hw (Some lo)) (or_else (hardware_profile m) empty_hint) 0
          <= score_ram (with_memory hw (Some hi)) (or_else (hardware_profile m) empty_hint) 0).
  { unfold score_ram. cbn [with_memory approxMemoryGb].
    destruct (min_ram_gb _) as [req|]; [|lia].
    destruct (Qle_bool req lo) eqn:E.
    - apply Qle_bool_iff in E.
      assert (Qle_bool req hi = true) as ->; [|lia].
      apply Qle_bool_iff. eapply Qle_trans; eassumption.
    - destruct (Qle_bool req hi); lia. }
  lia.
Qed.

Lemma more_memory_never_lowers_score_witness :
  score_value record_B (Some (with_memory profile_M (Some 16%Q))) <=
  score_value record_B (Some (with_memory profile_M (Some 64%Q))).
Proof.
  apply (more_memory_never_lowers_score record_B profile_M 16%Q 64%Q).
  discriminate.
Defined.

(** X2: a larger core count never lowers a record's score, and too few
    cores cost nothing: the score with a known core count is at least the
    score with the count unknown. *)
Theorem more_cores_never_lower_score (m : ModelRecord) (hw : HardwareProfile)
    (lo hi : Z) :
  lo <= hi ->
  score_value m (Some (with_cores hw None)) <=
    score_value m (Some (with_cores hw (Some lo))) /\
  score_value m (Some (with_cores hw (Some lo))) <=
    score_value m (Some (with_cores hw (Some hi))).
Proof.
  intros Hle. destruct (score_value_sum m hw) as (g & _ & Hs).
  rewrite (Hs (with_cores hw None)), (Hs (with_cores hw (Some lo))),
    (Hs (with_cores hw (Some hi))) by reflexivity.
  set (prof := or_else (hardware_profile m) empty_hint).
  change (score_arch (with_cores hw (Some hi))) with (score_arch (with_cores hw None)).
  change (score_arch (with_cores hw (Some lo))) with (score_arch (with_cores hw None)).
  change (score_ram (with_cores hw (Some hi))) with (score_ram (with_cores hw None)).
  change (score_ram (with_cores hw (Some lo))) with (score_ram (with_cores hw None)).
  unfold score_cores. cbn [with_cores cores].
  destruct (min_cores prof) as [req|]; [|lia].
  destruct (Z.leb_spec req lo), (Z.leb_spec req hi); lia.
Qed.

Lemma more_cores_never_lower_score_witness :
  score_value record_A (Some (with_cores profile_M None)) <=
    score_value record_A (Some (with_cores profile_M (Some 2))) /\
  score_value record_A (Some (with_cores profile_M (Some 2))) <=
    score_value record_A (Some (with_cores profile_M (Some 8))).
Proof.
  apply (more_cores_never_lower_score record_A profile_M 2 8). discriminate.
Defined.

(** X3: an entry of [recommended_for] without a space has no second
    field, so the token tested is the empty string, which every GPU string
    contains: a record with such an entry gets the GPU bonus on every
    machine whose GPU string is non-empty. *)
Theorem one_word_entry_always_matches (m : ModelRecord) (hw : HardwareProfile)
    (g e : string) (entries : list string) :
  gpu hw = Some g -> g <> "" ->
  recommended_for m = Some entries ->
  In e entries -> no_char " " e ->
  scoreModelForHardware m (Some hw) =
    Normal (score_value m (Some (with_gpu hw None)) + 2).
Proof.
  intros Hg Hne Hr Hin Hword.
  assert (Hb : gpu_bonus g entries = 2).
  { unfold gpu_bonus.
    assert (existsb (fun e => includes (toLowerCase g)
                                (toLowerCase (second_space_field e))) entries = true)
      as ->; [|reflexivity].
    apply existsb_exists. exists e. split; [exact Hin|].
    unfold second_space_field. rewrite (split_no_separator " " e Hword).
    apply includes_empty. }
  unfold score_value.
  change (scoreModelForHardware m (Some (with_gpu hw None)))
    with (score_gpu m (with_gpu hw None)
            (score_cores hw (or_else (hardware_profile m) empty_hint)
               (score_ram hw (or_else (hardware_profile m) empty_hint)
                  (score_arch hw (or_else (hardware_profile m) empty_hint) 0)))).
  rewrite (score_gpu_absent m (with_gpu hw None)) by now left.
  cbn [scoreModelForHardware].
  rewrite (score_gpu_present m hw _ g entries Hg Hne Hr), Hb. reflexivity.
Qed.

Lemma one_word_entry_always_matches_witness :
  scoreModelForHardware (sample_record "w" None (Some ["Laptop"]))
    (Some profile_radeon) =
  Normal (score_value (sample_record "w" None (Some ["Laptop"]))
            (Some (with_gpu profile_radeon None)) + 2).
Proof.
  apply (one_word_entry_always_matches (sample_record "w" None (Some ["Laptop"]))
           profile_radeon "AMD Radeon RX 6800" "Laptop" ["Laptop"]).
  - reflexivity.
  - discriminate.
  - reflexivity.
  - now left.
  - repeat constructor; discriminate.
Defined.

(** X4: the only penalty is the memory one: a negative score means that
    the record states a memory requirement and the machine's estimate is
    below it. *)
Theorem negative_score_means_too_little_memory (m : ModelRecord)
    (hw : HardwareProfile) :
  score_value m (Some hw) < 0 ->
  exists hint mem req,
    hardware_profile m = Some hint /\ min_ram_gb hint = Some req /\
    approxMemoryGb hw = Some mem /\ (mem < req)%Q.
Proof.
  destruct (score_value_sum m hw) as (g & Hg & Hs).
  rewrite (Hs hw eq_refl).
  set (prof := or_else (hardware_profile m) empty_hint).
  pose proof (score_arch_range hw prof 0) as Ha.
  pose proof (score_cores_range hw prof 0) as Hc.
  intros Hneg.
  assert (Hram : score_ram hw prof 0 < 0) by lia.
  unfold score_ram in Hram.
  destruct (approxMemoryGb hw) as [mem|] eqn:Em; [|lia].
  destruct (min_ram_gb prof) as [req|] eqn:Er; [|lia].
  destruct (Qle_bool req mem) eqn:E; [lia|].
  destruct (hardware_profile m) as [hint|] eqn:Eh; [|discriminate Er].
  exists hint, mem, req. repeat split; trivial.
  apply Qnot_le_lt. intros Hle. apply Qle_bool_iff in Hle. congruence.
Qed.

Lemma negative_score_means_too_little_memory_witness :
  exists hint mem req,
    hardware_profile record_B = Some hint /\ min_ram_gb hint = Some req /\
    approxMemoryGb profile_M = Some mem /\ (mem < req)%Q.
Proof.
  apply (negative_score_means_too_little_memory record_B profile_M).
  reflexivity.
Defined.

End MoreScoring.

(* ================================================================= *)
(** * More properties of filtering and ranking *)

Section MoreFiltering.

Lemma sort_sorted_id (l : list ScoredRecord) :
  StronglySorted at_least l -> sort by_score_desc l = l.
Proof.
  intros H. symmetry. now apply stable_sort_unique.
Qed.

Lemma rank_equal_scores (l : list ModelRecord) (hw : option HardwareProfile) (s : Z) :
  (forall m, In m l -> score_value m hw = s) ->
  rank l hw = map (scored_of hw) l.
Proof.
  intros H. unfold rank. apply sort_sorted_id.
  induction l as [|x l IH]; cbn [map]; constructor.
  - apply IH. intros m Hm. apply H. now right.
  - apply Forall_forall. intros r Hr. apply in_map_iff in Hr as (m & <- & Hm).
    unfold at_least, scored_of. cbn [score].
    rewrite (H x), (H m); [lia | now right | now left].
Qed.

(** Whatever the page held, a render pass leaves the first page. *)
Lemma render_result_cards (r : list ScoredRecord) (d : Dom) :
  models_list (render_result r d) =
  map (fun sr => renderCard (best_match (top_score r) true sr) sr)
    (firstn PAGE_SIZE r).
Proof.
  destruct r as [|top r]; [reflexivity|].
  unfold render_result. destruct (PAGE_SIZE <? _)%nat; reflexivity.
Qed.

(** X5: without a hardware profile every score is 0, so the ranking is
    the filtered catalog in catalog order, and the first page shows its
    first ten records, none with the best-match chip. *)
Theorem no_profile_keeps_catalog_order (models : list ModelRecord) (d : Dom) :
  let filtered :=
    applyFilters (trim (toLowerCase (search_input d))) (purpose_select d)
      (tools_select d) models in
  ranked_of models None d = map (fun m => {| model := m; score := 0 |}) filtered /\
  exists d',
    filterAndRender models None d = Normal d' /\
    models_list d' =
      map (fun m => {| card_model := m; card_recommended := false |})
        (firstn PAGE_SIZE filtered).
Proof.
  intros filtered.
  assert (Hr : ranked_of models None d
               = map (fun m => {| model := m; score := 0 |}) filtered).
  { unfold ranked_of. fold filtered.
    now rewrite (rank_equal_scores filtered None 0). }
  split; [exact Hr|].
  exists (render_result (ranked_of models None d) d).
  split; [apply filterAndRender_result|].
  rewrite render_result_cards, Hr, firstn_map, map_map.
  apply map_ext. intros m. unfold renderCard, best_match. cbn [model score].
  now rewrite andb_false_r.
Qed.

Lemma join_contains (sep f : string) (l : list (option string)) :
  In (Some f) l -> substring_of f (join sep l).
Proof.
  induction l as [|x l IH]; intros Hin; [destruct Hin|].
  destruct l as [|y l].
  - destruct Hin as [->|[]]. cbn. apply substring_of_refl.
  - change (join sep (x :: y :: l))
      with (or_else x "" ++ sep ++ join sep (y :: l)).
    destruct Hin as [->|Hin].
    + exists "", (sep ++ join sep (y :: l)). reflexivity.
    + destruct (IH Hin) as (a & b & ->).
      exists (or_else x "" ++ sep ++ a), b. now rewrite !append_assoc.
Qed.

Lemma searchable_in_haystack (m : ModelRecord) (f : string) :
  In f (searchable_fields m) -> substring_of (toLowerCase f) (haystack m).
Proof.
  intros Hin. unfold haystack. apply substring_of_lower, join_contains.
  unfold searchable_fields in Hin.
  repeat (apply in_app_or in Hin as [Hin|Hin]).
  - destruct Hin as [<-|[]]. now left.
  - destruct (display_name m); [|destruct Hin].
    destruct Hin as [<-|[]]. right. now left.
  - destruct Hin as [<-|[]]. right. right. now left.
  - destruct (notes m); [|destruct Hin].
    destruct Hin as [<-|[]]. right. right. right. now left.
  - apply in_or_app. right. now apply in_map.
Qed.

Lemma in_ranked (models : list ModelRecord) (hw : option HardwareProfile)
    (d : Dom) (m : ModelRecord) :
  In m (map model (ranked_of models hw d)) <->
  In m models /\
  passes (trim (toLowerCase (search_input d))) (purpose_select d)
    (tools_select d) m = true.
Proof.
  unfold ranked_of, rank. rewrite applyFilters_passes, <- filter_In.
  set (l := filter _ models).
  assert (P : Permutation (map model (sort by_score_desc (map (scored_of hw) l))) l).
  { eapply perm_trans; [apply Permutation_map, sort_perm|].
    rewrite map_map. cbn [scored_of model]. rewrite map_id. apply Permutation_refl. }
  split; apply Permutation_in; [exact P | now apply Permutation_sym].
Qed.

(** X6: a record is found by what it shows, for ASCII text.  Let the
    search text and the searchable fields of the catalog be ASCII.  If the
    search text, lower-cased and trimmed, occurs in the lower-cased model
    name, display name, provider, notes or recommended hardware entry of a
    catalog record, and the record passes the purpose and tools criteria,
    then the record is in the ranked result.  (Whether a record is in the
    result depends on the filters only, not on the scores.) *)
Theorem found_by_own_field (models : list ModelRecord)
    (hw : option HardwareProfile) (d : Dom) (m : ModelRecord) (f : string) :
  ascii_text (search_input d) ->
  Forall (fun m' => Forall ascii_text (searchable_fields m')) models ->
  In m models ->
  In f (searchable_fields m) ->
  substring_of (trim (toLowerCase (search_input d))) (toLowerCase f) ->
  passes "" (purpose_select d) (tools_select d) m = true ->
  In m (map model (ranked_of models hw d)).
Proof.
  intros _ _ Hm Hf Hsub Hpass. apply in_ranked. split; [exact Hm|].
  unfold passes in *. cbn [truthy String.eqb negb orb] in Hpass.
  rewrite andb_true_r in Hpass. rewrite Hpass. cbn [andb].
  apply orb_true_iff. right. unfold search_matches.
  apply includes_substring.
  eapply substring_of_trans; [exact Hsub|].
  now apply searchable_in_haystack.
Qed.

Lemma found_by_own_field_witness :
  In record_A (map model
    (ranked_of [record_A; record_B] (Some profile_M)
       (type_search " OLLAMA " initial_dom))).
Proof.
  apply (found_by_own_field [record_A; record_B] (Some profile_M)
           (type_search " OLLAMA " initial_dom) record_A "Ollama").
  - reflexivity.
  - repeat (constructor; try reflexivity).
  - now left.
  - right. now left.
  - exists "", "". reflexivity.
  - reflexivity.
Defined.

(** X7: a query that is part of another query finds at least what the
    other finds: making the search text longer never adds a record. *)
Theorem longer_query_narrows (search search' p tools : string)
    (l : list ModelRecord) (m : ModelRecord) :
  substring_of search' search ->
  In m (applyFilters search p tools l) ->
  In m (applyFilters search' p tools l).
Proof.
  intros Hsub. rewrite !applyFilters_passes, !filter_In.
  intros (Hin & Hp). split; [exact Hin|].
  unfold passes in *.
  apply andb_true_iff in Hp as (Hpt & Hs). rewrite Hpt. cbn [andb].
  destruct (truthy search') eqn:E'; [|reflexivity]. cbn [negb orb].
  destruct (truthy search) eqn:E.
  - cbn [negb orb] in Hs. unfold search_matches in *.
    apply includes_substring. apply includes_substring in Hs.
    eapply substring_of_trans; eassumption.
  - apply truthy_false_iff in E. subst search.
    destruct Hsub as (a & b & Hab).
    destruct a; [|discriminate]. destruct search'; [discriminate|discriminate].
Qed.

Lemma longer_query_narrows_witness :
  In record_A (applyFilters "lla" "" "" [record_A; record_B]).
Proof.
  apply (longer_query_narrows "ollama" "lla" "" "" [record_A; record_B] record_A).
  - exists "o", "ma". reflexivity.
  - now left.
Defined.

Lemma filter_complement {A} (f : A -> bool) (l : list A) :
  Permutation (filter f l ++ filter (fun x => negb (f x)) l) l.
Proof.
  induction l as [|x l IH]; cbn [filter]; [constructor|].
  destruct (f x); cbn [negb app].
  - now constructor.
  - eapply perm_trans; [apply Permutation_sym, Permutation_middle|].
    now constructor.
Qed.

(** X8: the tools filter splits the catalog in two.  Every non-empty
    selection other than "true" keeps exactly the records whose
    [supports_tools] is false or absent; together with the records kept
    by "true" they make up the catalog, and no record is in both. *)
Theorem tools_filter_splits_catalog (tools : string) (l : list ModelRecord) :
  tools <> "" -> tools <> "true" ->
  toolsFilter tools l = filter (fun m => negb (or_else (supports_tools m) false)) l /\
  toolsFilter "true" l = filter (fun m => or_else (supports_tools m) false) l /\
  Permutation (toolsFilter "true" l ++ toolsFilter tools l)%list l /\
  (forall m, In m (toolsFilter "true" l) -> ~ In m (toolsFilter tools l)).
Proof.
  intros Hne Hnt.
  assert (Ht : toolsFilter tools l
               = filter (fun m => negb (or_else (supports_tools m) false)) l).
  { unfold toolsFilter. apply truthy_true_iff in Hne. rewrite Hne.
    apply String.eqb_neq in Hnt. rewrite Hnt.
    apply filter_pointwise. intros m. unfold tools_matches.
    now destruct (or_else (supports_tools m) false). }
  assert (Hy : toolsFilter "true" l
               = filter (fun m => or_else (supports_tools m) false) l).
  { unfold toolsFilter. cbn [truthy String.eqb Ascii.eqb Bool.eqb negb].
    apply filter_pointwise. intros m. unfold tools_matches.
    now destruct (or_else (supports_tools m) false). }
  rewrite Ht, Hy. repeat split.
  - apply filter_complement.
  - intros m H1 H2. apply filter_In in H1 as (_ & H1).
    apply filter_In in H2 as (_ & H2). rewrite H1 in H2. discriminate.
Qed.

Lemma tools_filter_splits_catalog_witness :
  toolsFilter "false" [record_A; record_B]
    = filter (fun m => negb (or_else (supports_tools m) false)) [record_A; record_B] /\
  toolsFilter "true" [record_A; record_B]
    = filter (fun m => or_else (supports_tools m) false) [record_A; record_B] /\
  Permutation (toolsFilter "true" [record_A; record_B]
               ++ toolsFilter "false" [record_A; record_B])%list
              [record_A; record_B] /\
  (forall m, In m (toolsFilter "true" [record_A; record_B]) ->
             ~ In m (toolsFilter "false" [record_A; record_B])).
Proof.
  apply (tools_filter_splits_catalog "false" [record_A; record_B]); discriminate.
Defined.

(** X9: a search box holding only ASCII white space (TAB, LF, VT, FF,
    CR, SPACE) filters nothing: the ranked result is the one of an empty
    search box. *)
Theorem blank_search_is_no_search (models : list ModelRecord)
    (hw : option HardwareProfile) (d : Dom) :
  all_space (search_input d) ->
  ranked_of models hw d = ranked_of models hw (type_search "" d).
Proof.
  intros H. unfold ranked_of. cbn [type_search search_input purpose_select tools_select].
  now rewrite (trim_all_space _ H).
Qed.

Lemma blank_search_is_no_search_witness :
  ranked_of [record_A; record_B] (Some profile_M) (type_search "   " initial_dom)
  = ranked_of [record_A; record_B] (Some profile_M)
      (type_search "" (type_search "   " initial_dom)).
Proof.
  apply (blank_search_is_no_search [record_A; record_B] (Some profile_M)
           (type_search "   " initial_dom)).
  repeat constructor.
Defined.

(** X10: filtering is idempotent, and what it returns is what passes all
    three criteria: a record of the result is a record of the catalog,
    has the selected purpose when one is selected, and contains the
    search text when there is one. *)
Theorem filtering_is_idempotent_and_sound (search p tools : string)
    (l : list ModelRecord) :
  applyFilters search p tools (applyFilters search p tools l)
    = applyFilters search p tools l /\
  (forall m, In m (applyFilters search p tools l) ->
     In m l /\
     (p <> "" -> purpose m = p) /\
     (search <> "" -> substring_of search (haystack m))) /\
  (List.length (applyFilters search p tools l) <= List.length l)%nat.
Proof.
  rewrite !applyFilters_passes. split; [|split].
  - rewrite filter_twice. apply filter_pointwise. intros m.
    now destruct (passes search p tools m).
  - intros m Hm. apply filter_In in Hm as (Hin & Hp). split; [exact Hin|].
    unfold passes in Hp.
    apply andb_true_iff in Hp as (Hp & Hs).
    apply andb_true_iff in Hp as (Hp & _).
    split.
    + intros Hne. apply truthy_true_iff in Hne. rewrite Hne in Hp.
      now apply String.eqb_eq.
    + intros Hne. apply truthy_true_iff in Hne. rewrite Hne in Hs.
      now apply includes_substring.
  - apply filter_length_le.
Qed.

End MoreFiltering.

(* ================================================================= *)
(** * More properties of rendering *)

Section MoreRendering.

Lemma render_result_frame (r : list ScoredRecord) (d : Dom) :
  list_text (render_result r d) = "" /\
  results_summary (render_result r d) =
    (if (List.length r =? 0)%nat then no_match_text
     else summary_text (List.length r)) /\
  search_input (render_result r d) = search_input d /\
  purpose_select (render_result r d) = purpose_select d /\
  tools_select (render_result r d) = tools_select d.
Proof.
  destruct r as [|top r]; [repeat split|].
  unfold render_result. destruct (PAGE_SIZE <? _)%nat; repeat split.
Qed.

Lemma ranked_of_inputs (models : list ModelRecord) (hw : option HardwareProfile)
    (d d' : Dom) :
  search_input d = search_input d' -> purpose_select d = purpose_select d' ->
  tools_select d = tools_select d' ->
  ranked_of models hw d = ranked_of models hw d'.
Proof. unfold ranked_of. now intros -> -> ->. Qed.

(** X11: a render pass starts the list afresh.  Whatever the page held
    before (cards of an earlier pass, any number of revealed batches, the
    load-failure text), after the pass the list holds exactly the first
    [min 10 total] ranked records and no text, the three inputs are
    untouched, and the summary reports [total]; so two pages with the same
    inputs show the same list and summary after a pass. *)
Theorem render_pass_starts_afresh (models : list ModelRecord)
    (hw : option HardwareProfile) (d d' : Dom) :
  search_input d = search_input d' -> purpose_select d = purpose_select d' ->
  tools_select d = tools_select d' ->
  let r := ranked_of models hw d in
  exists e e',
    filterAndRender models hw d = Normal e /\
    filterAndRender models hw d' = Normal e' /\
    models_list e = models_list e' /\
    map card_model (models_list e) = map model (firstn PAGE_SIZE r) /\
    List.length (models_list e) = Nat.min PAGE_SIZE (List.length r) /\
    list_text e = "" /\ list_text e' = "" /\
    results_summary e = results_summary e' /\
    results_summary e =
      (if (List.length r =? 0)%nat then no_match_text
       else summary_text (List.length r)) /\
    search_input e = search_input d.
Proof.
  intros Hs Hp Ht r.
  exists (render_result r d), (render_result r d').
  split; [apply filterAndRender_result|].
  split; [rewrite filterAndRender_result;
          now rewrite <- (ranked_of_inputs models hw d d' Hs Hp Ht)|].
  destruct (render_result_frame r d) as (T1 & S1 & I1 & _).
  destruct (render_result_frame r d') as (T2 & S2 & _).
  rewrite !render_result_cards.
  repeat split; trivial.
  - rewrite map_map. reflexivity.
  - now rewrite length_map, length_firstn.
  - now rewrite S1, S2.
Qed.

Lemma render_pass_starts_afresh_witness :
  let models := repeat record_A 25 in
  let hw := Some profile_M in
  let d := initial_dom in
  let d' := clicks 2 0 (render_result (ranked_of models hw d) d) in
  let r := ranked_of models hw d in
  exists e e',
    filterAndRender models hw d = Normal e /\
    filterAndRender models hw d' = Normal e' /\
    models_list e = models_list e' /\
    map card_model (models_list e) = map model (firstn PAGE_SIZE r) /\
    List.length (models_list e) = Nat.min PAGE_SIZE (List.length r) /\
    list_text e = "" /\ list_text e' = "" /\
    results_summary e = results_summary e' /\
    results_summary e =
      (if (List.length r =? 0)%nat then no_match_text
       else summary_text (List.length r)) /\
    search_input e = search_input d.
Proof.
  apply (render_pass_starts_afresh (repeat record_A 25) (Some profile_M)
           initial_dom
           (clicks 2 0 (render_result
                          (ranked_of (repeat record_A 25) (Some profile_M)
                             initial_dom) initial_dom)));
    reflexivity.
Defined.

Lemma own_button_after_pass (r : list ScoredRecord) (d : Dom) :
  dom_ok d -> (PAGE_SIZE < List.length r)%nat ->
  find (fun w => (node w =? fresh d)%nat) (show_more (render_result r d))
  = Some {| node := fresh d;
            button_text := show_more_text (List.length r - PAGE_SIZE);
            closure_scored := r; closure_topScore := top_score r |}.
Proof.
  intros Hok Hlen. destruct r as [|top r]; [cbn in Hlen; lia|].
  unfold render_result.
  destruct (Nat.ltb_spec PAGE_SIZE (List.length (top :: r))); [|lia].
  cbn [append_show_more show_more append_cards set_summary clear_list fresh].
  apply find_app_last; [now apply find_none_fresh|].
  cbn [node]. apply Nat.eqb_refl.
Qed.




(** X13: a render pass never takes a show-more wrapper out of the
    document and never changes one: the wrappers after the pass are the
    wrappers before it, followed by a new one exactly when more than ten
    records are ranked. *)
Theorem render_pass_keeps_old_buttons (models : list ModelRecord)
    (hw : option HardwareProfile) (d : Dom) :
  let r := ranked_of models hw d in
  exists d',
    filterAndRender models hw d = Normal d' /\
    show_more d' =
      (show_more d ++
       if (PAGE_SIZE <? List.length r)%nat
       then [ {| node := fresh d;
                 button_text := show_more_text (List.length r - PAGE_SIZE);
                 closure_scored := r; closure_topScore := top_score r |} ]
       else [])%list /\
    (List.length (show_more d) <= List.length (show_more d'))%nat.
Proof.
  intros r. exists (render_result r d).
  split; [apply filterAndRender_result|].
  assert (E : show_more (render_result r d) =
      (show_more d ++
       if (PAGE_SIZE <? List.length r)%nat
       then [ {| node := fresh d;
                 button_text := show_more_text (List.length r - PAGE_SIZE);
                 closure_scored := r; closure_topScore := top_score r |} ]
       else [])%list).
  { destruct r as [|top r]; [cbn; now rewrite app_nil_r|].
    unfold render_result. destruct (PAGE_SIZE <? _)%nat.
    - reflexivity.
    - cbn. now rewrite app_nil_r. }
  split; [exact E|]. rewrite E, length_app. lia.
Qed.

Lemma find_app_first {A} (f : A -> bool) (l l' : list A) (x : A) :
  find f l = Some x -> find f (l ++ l') = Some x.
Proof.
  induction l as [|y l IH]; cbn [find app]; [discriminate|].
  destruct (f y); [trivial|exact IH].
Qed.

(** X14: the button of an earlier pass stays live.  After a pass over
    more than ten records, let the inputs change and a second pass run:
    a click on the first pass's button then appends to the list of the
    second pass the next batch of the first pass's ranking, counted from
    the number of cards the second pass shows. *)
Theorem earlier_button_reveals_earlier_ranking (models : list ModelRecord)
    (hw : option HardwareProfile) (d0 d1 : Dom) :
  dom_ok d0 ->
  let r1 := ranked_of models hw d0 in
  (PAGE_SIZE < List.length r1)%nat ->
  show_more d1 = show_more (render_result r1 d0) ->
  let r2 := ranked_of models hw d1 in
  let shown := Nat.min PAGE_SIZE (List.length r2) in
  exists d2,
    filterAndRender models hw d1 = Normal d2 /\
    map card_model (models_list (click (fresh d0) d2)) =
      (map model (firstn PAGE_SIZE r2)
       ++ map model (slice r1 shown (shown + PAGE_SIZE)))%list.
Proof.
  intros Hok r1 Hlen Hsame r2 shown.
  exists (render_result r2 d1). split; [apply filterAndRender_result|].
  assert (Hfind :
    find (fun w => (node w =? fresh d0)%nat) (show_more (render_result r2 d1))
    = Some {| node := fresh d0;
              button_text := show_more_text (List.length r1 - PAGE_SIZE);
              closure_scored := r1; closure_topScore := top_score r1 |}).
  { assert (E : exists extra, show_more (render_result r2 d1)
                              = (show_more d1 ++ extra)%list).
    { destruct r2 as [|top r]; [exists []; cbn; now rewrite app_nil_r|].
      unfold render_result. destruct (PAGE_SIZE <? _)%nat.
      - eexists. reflexivity.
      - exists []. cbn. now rewrite app_nil_r. }
    destruct E as (extra & ->). apply find_app_first.
    rewrite Hsame. now apply own_button_after_pass. }
  unfold click. rewrite Hfind. cbn [closure_scored closure_topScore node].
  unfold showMoreClick.
  assert (Hshown : List.length (models_list (render_result r2 d1)) = shown)
    by (rewrite render_result_cards, length_map, length_firstn; reflexivity).
  rewrite Hshown.
  destruct (_ <=? 0);
    cbn [remove_node set_button_text append_cards models_list];
    rewrite map_app, render_result_cards, !map_map; reflexivity.
Qed.

Lemma earlier_button_reveals_earlier_ranking_witness :
  let models := repeat record_A 11 in
  let hw := Some profile_M in
  let d0 := initial_dom in
  let r1 := ranked_of models hw d0 in
  let d1 := type_search "zzz" (render_result r1 d0) in
  let r2 := ranked_of models hw d1 in
  let shown := Nat.min PAGE_SIZE (List.length r2) in
  exists d2,
    filterAndRender models hw d1 = Normal d2 /\
    map card_model (models_list (click (fresh d0) d2)) =
      (map model (firstn PAGE_SIZE r2)
       ++ map model (slice r1 shown (shown + PAGE_SIZE)))%list.
Proof.
  apply (earlier_button_reveals_earlier_ranking (repeat record_A 11)
           (Some profile_M) initial_dom
           (type_search "zzz"
              (render_result (ranked_of (repeat record_A 11) (Some profile_M)
                                initial_dom) initial_dom))).
  - constructor.
  - vm_compute. lia.
  - reflexivity.
Defined.

End MoreRendering.

(* ================================================================= *)
(** * Properties of hardware detection and of the summary *)

Section Detection.

Variable number_text : Q -> string.

Lemma detect_os_mac (ua : string) :
  detect_os ua = "macOS" <->
  substring_of "Mac OS X" ua \/ substring_of "Macintosh" ua.
Proof.
  unfold detect_os, test. rewrite <- !includes_substring.
  destruct (includes ua "Mac OS X"), (includes ua "Macintosh"); cbn [orb];
    try (split; [auto|reflexivity]).
  destruct (includes ua "Windows NT"); [split; [discriminate|intros [|]; discriminate]|].
  destruct (includes ua "Linux"); split; try discriminate; intros [|]; discriminate.
Qed.

(** X15: the Apple-silicon flag needs a Mac user agent.  The detected
    profile has the flag exactly when the user agent names "Mac OS X" or
    "Macintosh" and carries one of the three markers; on every other
    machine, whatever its user agent says about arm64, the architecture
    factor of a record is 2 for an x86_64 hint and 0 for any other. *)
Theorem apple_silicon_needs_mac_user_agent (nav : Navigator)
    (canvas : completion Canvas) :
  let hw := detected_profile (detectHardware nav canvas) in
  let ua := or_else (nav_userAgent nav) "" in
  (isAppleSilicon hw = true <->
     (substring_of "Mac OS X" ua \/ substring_of "Macintosh" ua) /\
     (substring_of "Apple Silicon" ua \/ substring_of "arm64" ua \/
      substring_of "; U; CPU OS" ua)) /\
  (isAppleSilicon hw = true -> os hw = "macOS") /\
  (~ (substring_of "Mac OS X" ua \/ substring_of "Macintosh" ua) ->
   forall prof s,
     score_arch hw prof s = s + if arch_is prof "x86_64" then 2 else 0).
Proof.
  intros hw ua.
  assert (Hflag : isAppleSilicon hw = true <->
     (substring_of "Mac OS X" ua \/ substring_of "Macintosh" ua) /\
     (substring_of "Apple Silicon" ua \/ substring_of "arm64" ua \/
      substring_of "; U; CPU OS" ua)).
  { subst hw. cbn [detectHardware detected_profile isAppleSilicon]. fold ua.
    unfold detect_apple_silicon. rewrite andb_true_iff, String.eqb_eq.
    rewrite detect_os_mac. unfold test.
    rewrite !orb_true_iff, !includes_substring. tauto. }
  split; [exact Hflag|]. split.
  - intros H. apply Hflag in H as (H & _).
    subst hw. cbn [detectHardware detected_profile os]. fold ua.
    now apply detect_os_mac.
  - intros Hnot prof s.
    assert (isAppleSilicon hw = false) as E.
    { apply not_true_is_false. intros E.
      apply Hflag in E as (E & _). contradiction. }
    unfold score_arch. rewrite E. cbn [andb negb].
    destruct (arch_is prof "x86_64"); lia.
Qed.

(** X16: the GPU string is present exactly when the whole WebGL chain
    went through: a canvas, a context under one of the two names (the
    second asked only when the first gives none), the debug extension and
    both parameters; it is then the trimmed "vendor renderer".  In every
    other case, an exception at any step included, detection returns a
    profile without GPU string. *)
Theorem gpu_string_needs_whole_chain (nav : Navigator)
    (canvas : completion Canvas) (s : string) :
  gpu (detected_profile (detectHardware nav canvas)) = Some s <->
  exists c gl vendor renderer,
    canvas = Normal c /\
    (getContext_webgl c = Normal (Some gl) \/
     getContext_webgl c = Normal None /\
     getContext_experimental c = Normal (Some gl)) /\
    getExtension gl = Normal true /\
    getParameter_renderer gl = Normal renderer /\
    getParameter_vendor gl = Normal vendor /\
    s = trim (vendor ++ " " ++ renderer).
Proof.
  cbn [detectHardware detected_profile gpu]. unfold detect_gpu, read_gpu.
  split.
  - destruct canvas as [c|e]; cbn [bind]; [|discriminate].
    assert (Hgl : forall gl,
      match
        (dbgInfo <- getExtension gl;;
         (if dbgInfo : bool
          then renderer <- getParameter_renderer gl;;
               vendor <- getParameter_vendor gl;;
               Normal (Some (trim (vendor ++ " " ++ renderer)))
          else Normal None))
      with
      | Normal g => g
      | Throw _ => None
      end = Some s ->
      exists vendor renderer,
        getExtension gl = Normal true /\
        getParameter_renderer gl = Normal renderer /\
        getParameter_vendor gl = Normal vendor /\
        s = trim (vendor ++ " " ++ renderer)).
    { intros gl.
      destruct (getExtension gl) as [[|]|]; cbn [bind]; try discriminate.
      destruct (getParameter_renderer gl) as [renderer|]; cbn [bind];
        [|discriminate].
      destruct (getParameter_vendor gl) as [vendor|]; cbn [bind];
        [|discriminate].
      intros [= <-]. now exists vendor, renderer. }
    destruct (getContext_webgl c) as [[gl|]|] eqn:E1; cbn [bind];
      [| |discriminate].
    + intros H. destruct (Hgl gl H) as (vendor & renderer & H1 & H2 & H3 & H4).
      exists c, gl, vendor, renderer. auto 10.
    + destruct (getContext_experimental c) as [[gl|]|] eqn:E2; cbn [bind];
        try discriminate.
      intros H. destruct (Hgl gl H) as (vendor & renderer & H1 & H2 & H3 & H4).
      exists c, gl, vendor, renderer. auto 10.
  - intros (c & gl & vendor & renderer & -> & Hctx & He & Hr & Hv & ->).
    cbn [bind].
    destruct Hctx as [->|(-> & ->)]; cbn [bind];
      rewrite He; cbn [bind]; rewrite Hr; cbn [bind]; rewrite Hv; reflexivity.
Qed.

(** X17: what the summary does not show is not scored.  The grid starts
    with the OS item; it has a CPU item exactly for an Apple-silicon
    profile, and without it no record gets the arm64 bonus; without a
    Cores, RAM or GPU item the corresponding factor is 0 for every
    record. *)
Theorem undisplayed_hardware_is_not_scored (hw : HardwareProfile) :
  let labels := map item_label (hardware_items number_text hw) in
  hd_error labels = Some "OS" /\
  (In "CPU" labels <-> isAppleSilicon hw = true) /\
  (~ In "CPU" labels ->
   forall prof s, score_arch hw prof s = s + if arch_is prof "x86_64" then 2 else 0) /\
  (~ In "Cores" labels -> forall prof s, score_cores hw prof s = s) /\
  (~ In "RAM" labels -> forall prof s, score_ram hw prof s = s) /\
  (~ In "GPU" labels -> forall m s, score_gpu m hw s = Normal s).
Proof.
  intros labels. subst labels. unfold hardware_items.
  rewrite !map_app. cbn [map app hd_error item_label].
  split; [reflexivity|].
  split; [|split; [|split; [|split]]].
  - destruct (isAppleSilicon hw), (cores hw), (approxMemoryGb hw),
      (truthy_opt (gpu hw)); cbn; intuition discriminate.
  - intros Hno prof s. unfold score_arch.
    destruct (isAppleSilicon hw).
    + exfalso. apply Hno. right. now left.
    + cbn [andb negb]. destruct (arch_is prof "x86_64"); lia.
  - intros Hno prof s. unfold score_cores.
    destruct (cores hw); [|reflexivity].
    exfalso. apply Hno. right. apply in_or_app. right. now left.
  - intros Hno prof s. unfold score_ram.
    destruct (approxMemoryGb hw); [|reflexivity].
    exfalso. apply Hno. right. apply in_or_app. right.
    apply in_or_app. right. now left.
  - intros Hno m s. apply score_gpu_absent. left.
    destruct (truthy_opt (gpu hw)); [|reflexivity].
    exfalso. apply Hno. right. apply in_or_app. right.
    apply in_or_app. right. apply in_or_app. right. now left.
Qed.

End Detection.

(* ================================================================= *)
(** * Properties of loading and of [init] *)

Section Startup.

Variable number_text : Q -> string.

Lemma loadModels_normal (fetched : completion (Response (list ModelRecord)))
    (ms : list ModelRecord) :
  loadModels fetched = Normal ms <->
  exists res, fetched = Normal res /\ ok res = true /\ json res = Normal ms.
Proof.
  unfold loadModels. split.
  - destruct fetched as [res|e]; cbn [bind]; [|discriminate].
    destruct (ok res) eqn:E; cbn [negb]; [|discriminate].
    intros H. now exists res.
  - intros (res & -> & Hok & Hj). cbn [bind]. now rewrite Hok.
Qed.

(** X18: the three ways a catalog load can fail look alike.  [loadModels]
    returns a catalog exactly when the fetch resolved, the status was ok
    and the body parsed; in every other case [init] keeps the empty
    catalog, writes the failure text into the list and runs no render
    pass; and the first pass that a filter event triggers wipes that text
    and reports that no model matches. *)
Theorem catalog_load_failures_alike
    (fetched : completion (Response (list ModelRecord)))
    (hw : option HardwareProfile) (d : Dom) :
  (forall ms, loadModels fetched = Normal ms <->
     exists res, fetched = Normal res /\ ok res = true /\ json res = Normal ms) /\
  (forall ms, loadModels fetched = Normal ms -> ms <> [] ->
     init_models (loadModels fetched) hw d = (ms, filterAndRender ms hw d)) /\
  ((forall ms, loadModels fetched <> Normal ms) ->
   init_models (loadModels fetched) hw d
     = ([], Normal (set_list_text load_failed_text d)) /\
   forall t, exists e,
     filterAndRender [] hw (type_search t (set_list_text load_failed_text d))
       = Normal e /\
     list_text e = "" /\ models_list e = [] /\
     results_summary e = no_match_text).
Proof.
  split; [apply loadModels_normal|]. split.
  - intros ms -> Hne. unfold init_models.
    destruct ms as [|m ms]; [contradiction|reflexivity].
  - intros Hfail. split.
    + destruct (loadModels fetched) as [ms|e]; [now destruct (Hfail ms)|].
      reflexivity.
    + intros t. eexists. split.
      * rewrite filterAndRender_result, ranked_of_empty. reflexivity.
      * repeat split.
Qed.

(** X19: a failed fetch of the contributors, an error status and an empty
    list all end in the same place: [loadContributors] returns the empty
    list and the container shows the invitation text, without badges. *)
Theorem contributors_failure_looks_empty
    (fetched : completion (Response (list Contributor)))
    (container : ContributorsEl) :
  (exists e, fetched = Throw e) \/
  (exists res, fetched = Normal res /\
     (ok res = false \/ json res = Normal [])) ->
  loadContributors fetched = Normal [] /\
  init_contributors fetched (Some container) =
    Normal (Some {| contributors_text := no_contributors_text;
                    contributors_badges := [] |}).
Proof.
  intros H.
  assert (E : loadContributors fetched = Normal []).
  { destruct H as [(e & ->)|(res & -> & [Hok|Hj])]; [reflexivity| |].
    - cbn. now rewrite Hok.
    - cbn. destruct (ok res); [exact Hj|reflexivity]. }
  split; [exact E|]. unfold init_contributors. now rewrite E.
Qed.

Lemma contributors_failure_looks_empty_witness :
  loadContributors (Normal {| ok := false; status := 404; json := Throw "body" |})
    = Normal [] /\
  init_contributors (Normal {| ok := false; status := 404; json := Throw "body" |})
    (Some {| contributors_text := "Loading"; contributors_badges := [] |}) =
    Normal (Some {| contributors_text := no_contributors_text;
                    contributors_badges := [] |}).
Proof.
  apply (contributors_failure_looks_empty
           (Normal {| ok := false; status := 404; json := Throw "body" |})
           {| contributors_text := "Loading"; contributors_badges := [] |}).
  right. eexists. split; [reflexivity|]. now left.
Defined.

(** X20: every contributor of a loaded, non-empty list gets one badge, in
    the order of the list.  The badge is named by the contributor's name,
    or by the GitHub handle when the name is missing or empty, and it
    links to the handle's GitHub page exactly when the handle is present
    and non-empty. *)
Theorem one_badge_per_contributor
    (fetched : completion (Response (list Contributor)))
    (res : Response (list Contributor)) (cs : list Contributor)
    (container : ContributorsEl) :
  fetched = Normal res -> ok res = true -> json res = Normal cs -> cs <> [] ->
  exists el,
    init_contributors fetched (Some container) = Normal (Some el) /\
    contributors_text el = "" /\
    List.length (contributors_badges el) = List.length cs /\
    forall i c, nth_error cs i = Some c ->
      exists b, nth_error (contributors_badges el) i = Some b /\
        (forall nm, contributor_name c = Some nm -> nm <> "" ->
           badge_name b = Some nm) /\
        (contributor_name c = None \/ contributor_name c = Some "" ->
           badge_name b = contributor_github c) /\
        (forall g, contributor_github c = Some g -> g <> "" ->
           badge_link b = Some {| href := "https://github.com/" ++ g;
                                  link_text := " @" ++ g |}) /\
        (contributor_github c = None \/ contributor_github c = Some "" ->
           badge_link b = None).
Proof.
  intros -> Hok Hj Hne.
  exists (render_contributors cs). split.
  { unfold init_contributors, loadContributors. rewrite Hok, Hj. reflexivity. }
  unfold render_contributors.
  destruct cs as [|c0 cs]; [contradiction|]. cbn [List.length Nat.eqb].
  cbn [contributors_text contributors_badges].
  split; [reflexivity|]. split; [now rewrite length_map|].
  intros i c Hi. exists (contributor_badge c). split.
  { rewrite nth_error_map, Hi. reflexivity. }
  unfold contributor_badge. cbn [badge_name badge_link].
  split; [|split; [|split]].
  - intros nm -> Hnm. cbn [truthy_opt]. apply truthy_true_iff in Hnm.
    now rewrite Hnm.
  - intros [->| ->]; reflexivity.
  - intros g -> Hg. cbn [truthy_opt or_else]. apply truthy_true_iff in Hg.
    now rewrite Hg.
  - intros [->| ->]; reflexivity.
Qed.

Lemma one_badge_per_contributor_witness :
  let cs := [ {| contributor_name := Some "Ada"; contributor_github := Some "ada" |};
              {| contributor_name := None; contributor_github := None |} ] in
  let container := {| contributors_text := "Loading"; contributors_badges := [] |} in
  exists el,
    init_contributors (Normal {| ok := true; status := 200; json := Normal cs |})
      (Some container) = Normal (Some el) /\
    contributors_text el = "" /\
    List.length (contributors_badges el) = List.length cs /\
    forall i c, nth_error cs i = Some c ->
      exists b, nth_error (contributors_badges el) i = Some b /\
        (forall nm, contributor_name c = Some nm -> nm <> "" ->
           badge_name b = Some nm) /\
        (contributor_name c = None \/ contributor_name c = Some "" ->
           badge_name b = contributor_github c) /\
        (forall g, contributor_github c = Some g -> g <> "" ->
           badge_link b = Some {| href := "https://github.com/" ++ g;
                                  link_text := " @" ++ g |}) /\
        (contributor_github c = None \/ contributor_github c = Some "" ->
           badge_link b = None).
Proof.
  apply (one_badge_per_contributor
           (Normal {| ok := true; status := 200;
                      json := Normal
                        [ {| contributor_name := Some "Ada";
                             contributor_github := Some "ada" |};
                          {| contributor_name := None;
                             contributor_github := None |} ] |})
           {| ok := true; status := 200;
              json := Normal
                [ {| contributor_name := Some "Ada";
                     contributor_github := Some "ada" |};
                  {| contributor_name := None;
                     contributor_github := None |} ] |});
    [reflexivity | reflexivity | reflexivity | discriminate].
Defined.

(** X21: [init] ends abruptly in one case only: the page has a
    contributors container, the contributors fetch resolved with an ok
    status, and reading its body failed, a failure the [catch] of
    [loadContributors] does not cover.  Otherwise it returns; the profile
    its listeners hold is the detected one, the hardware element, when the
    page has one, shows the grid of that profile and never the
    could-not-detect text, and the catalog held is the loaded one, or the
    empty one after a failed load. *)
Theorem init_failure_modes (b : Browser) (p : Page) :
  match init number_text b p with
  | Throw e =>
      contributors_list p <> None /\
      exists res, fetch_contributors b = Normal res /\ ok res = true /\
                  json res = Throw e
  | Normal s =>
      held_hw s = detected_profile (detectHardware (navigator b) (createCanvas b)) /\
      hardware_detected (page s) =
        match hardware_detected p with
        | Some _ => Some (HwGrid (hardware_items number_text (held_hw s)))
        | None => None
        end /\
      repo_link (page s) = infer_repo_link (hostname b) (pathname b) (repo_link p) /\
      match loadModels (fetch_models b) with
      | Normal ms => held_models s = ms
      | Throw _ => held_models s = [] /\
                   list_text (dom (page s)) = load_failed_text
      end
  end.
Proof.
  unfold init.
  set (hw := detected_profile (detectHardware (navigator b) (createCanvas b))).
  assert (Hmodels : exists d,
    init_models (loadModels (fetch_models b)) (Some hw) (dom p)
      = (match loadModels (fetch_models b) with Normal ms => ms | Throw _ => [] end,
         Normal d) /\
    match loadModels (fetch_models b) with
    | Normal _ => True
    | Throw _ => list_text d = load_failed_text
    end).
  { unfold init_models. destruct (loadModels (fetch_models b)) as [ms|e].
    - destruct ms as [|m ms]; cbn [List.length Nat.ltb Nat.leb].
      + now exists (dom p).
      + rewrite filterAndRender_result. eexists. split; [reflexivity|exact I].
    - cbn [List.length Nat.ltb Nat.leb]. eexists. split; reflexivity. }
  destruct Hmodels as (d & -> & Hd). cbn [bind].
  assert (Hheld :
    match loadModels (fetch_models b) with
    | Normal ms =>
        match loadModels (fetch_models b) with Normal ms => ms | Throw _ => [] end
        = ms
    | Throw _ =>
        match loadModels (fetch_models b) with Normal ms => ms | Throw _ => [] end
        = [] /\ list_text d = load_failed_text
    end).
  { destruct (loadModels (fetch_models b)); auto. }
  unfold init_contributors, loadContributors.
  destruct (contributors_list p) as [container|] eqn:Ec; cbn [bind].
  - destruct (fetch_contributors b) as [res|e] eqn:Ef; cbn [bind].
    + destruct (ok res) eqn:Eo; cbn [negb bind].
      * destruct (json res) as [cs|e] eqn:Ej; cbn [bind].
        -- cbn [held_hw page hardware_detected repo_link held_models dom].
           repeat split. exact Hheld.
        -- split; [discriminate|]. now exists res.
      * cbn [held_hw page hardware_detected repo_link held_models dom].
        repeat split. exact Hheld.
    + cbn [held_hw page hardware_detected repo_link held_models dom].
      repeat split. exact Hheld.
  - cbn [held_hw page hardware_detected repo_link held_models dom].
    repeat split. exact Hheld.
Qed.

(** X22: on a GitHub Pages project site the repository link is inferred
    from the address: for the host [user.github.io], the user having no
    dot, and a path whose first segment is [repo], the link points to
    [https://github.com/user/repo] and reads [user/repo].  On the root
    path, or on a host that does not mention github.io, the link is left
    as the page has it. *)
Theorem repo_link_from_pages_address (user repo tail : string) (l : Link) :
  no_char "." user -> no_char "/" repo -> repo <> "" ->
  tail = "" \/ (exists t, tail = String "/" t) ->
  infer_repo_link (user ++ ".github.io") ("/" ++ repo ++ tail) (Some l) =
    Some {| href := "https://github.com/" ++ user ++ "/" ++ repo;
            link_text := user ++ "/" ++ repo |} /\
  infer_repo_link (user ++ ".github.io") "/" (Some l) = Some l /\
  infer_repo_link (user ++ ".github.io") "" (Some l) = Some l /\
  (forall host path, includes host "github.io" = false ->
     infer_repo_link host path (Some l) = Some l).
Proof.
  intros Hu Hr Hne Htail.
  assert (Hhost : includes (user ++ ".github.io") "github.io" = true).
  { apply includes_substring. exists (user ++ "."), "".
    now rewrite append_assoc. }
  split; [|split; [|split]].
  - unfold infer_repo_link. rewrite Hhost.
    change (user ++ ".github.io") with (user ++ String "." "github.io").
    rewrite (split_first_field "." user "github.io" Hu).
    change ("/" ++ repo ++ tail) with (String "/" (repo ++ tail)).
    cbn [split Ascii.eqb Bool.eqb]. cbn [filter truthy String.eqb negb].
    apply truthy_true_iff in Hne.
    destruct Htail as [->|(t & ->)].
    + rewrite append_empty_r, (split_no_separator "/" repo Hr).
      cbn [filter]. now rewrite Hne.
    + rewrite (split_first_field "/" repo t Hr). cbn [filter]. now rewrite Hne.
  - unfold infer_repo_link. now rewrite Hhost.
  - unfold infer_repo_link. now rewrite Hhost.
  - intros host path H. unfold infer_repo_link. now rewrite H.
Qed.

Lemma repo_link_from_pages_address_witness :
  let l := {| href := "#"; link_text := "repo" |} in
  infer_repo_link ("antoniocali" ++ ".github.io") ("/" ++ "wollama" ++ "/index.html")
    (Some l) =
    Some {| href := "https://github.com/" ++ "antoniocali" ++ "/" ++ "wollama";
            link_text := "antoniocali" ++ "/" ++ "wollama" |} /\
  infer_repo_link ("antoniocali" ++ ".github.io") "/" (Some l) = Some l /\
  infer_repo_link ("antoniocali" ++ ".github.io") "" (Some l) = Some l /\
  (forall host path, includes host "github.io" = false ->
     infer_repo_link host path (Some l) = Some l).
Proof.
  apply (repo_link_from_pages_address "antoniocali" "wollama" "/index.html"
           {| href := "#"; link_text := "repo" |}).
  - repeat constructor; discriminate.
  - repeat constructor; discriminate.
  - discriminate.
  - right. now exists "index.html".
Defined.

End Startup.

(* ================================================================= *)
(** * Properties of the cards *)

Section Cards.

Lemma shown_cards_pass_filters (models : list ModelRecord)
    (hw : option HardwareProfile) (d0 : Dom) (k : nat) (c : Card) :
  dom_ok d0 ->
  In c (models_list
          (clicks k (fresh d0) (render_result (ranked_of models hw d0) d0))) ->
  In (card_model c) models /\
  passes (trim (toLowerCase (search_input d0))) (purpose_select d0)
    (tools_select d0) (card_model c) = true.
Proof.
  intros Hok Hin. apply (in_ranked models hw d0).
  destruct (session_of_pass models hw d0 k Hok) as (Hcards & Hb & _).
  apply (in_map card_model) in Hin.
  rewrite Hcards, revealed_cards_models in Hin by exact Hb.
  rewrite <- (firstn_skipn (Nat.min (PAGE_SIZE * (k + 1))
                              (List.length (ranked_of models hw d0)))
                (ranked_of models hw d0)).
  rewrite map_app. apply in_or_app. now left.
Qed.

(** X23: the chips agree with the filters.  On every card a render pass
    shows, and on every card revealed by clicks on the button that pass
    created: if a purpose is selected the card
    is of that purpose and its chip reads "Coding" for "coding" and
    "General assistant" for any other; if the tools selection is "true"
    the chip reads "Tools / function calling", and for any other
    non-empty selection "No tools". *)
Theorem chips_agree_with_filters (models : list ModelRecord)
    (hw : option HardwareProfile) (d0 : Dom) (k : nat) :
  dom_ok d0 ->
  exists d1,
    filterAndRender models hw d0 = Normal d1 /\
    forall c, In c (models_list (clicks k (fresh d0) d1)) ->
      let v := card_view c in
      (purpose_select d0 <> "" ->
         purpose_class v = "wm-chip purpose-" ++ purpose_select d0 /\
         purpose_text v =
           if (purpose_select d0 =? "coding")%string
           then "Coding" else "General assistant") /\
      (tools_select d0 = "true" ->
         tools_text v = "Tools / function calling" /\
         tools_class v = "wm-chip tools-yes") /\
      (tools_select d0 <> "" -> tools_select d0 <> "true" ->
         tools_text v = "No tools" /\ tools_class v = "wm-chip tools-no").
Proof.
  intros Hok. exists (render_result (ranked_of models hw d0) d0).
  split; [apply filterAndRender_result|].
  intros c Hc v.
  destruct (shown_cards_pass_filters models hw d0 k c Hok Hc) as (_ & Hp).
  unfold passes in Hp.
  apply andb_true_iff in Hp as (Hp & _).
  apply andb_true_iff in Hp as (Hpurpose & Htools).
  subst v. unfold card_view.
  cbn [purpose_class purpose_text tools_class tools_text].
  split; [|split].
  - intros Hne. apply truthy_true_iff in Hne. rewrite Hne in Hpurpose.
    apply String.eqb_eq in Hpurpose. now rewrite Hpurpose.
  - intros Ht. rewrite Ht in Htools. unfold tools_matches in Htools.
    cbn [truthy String.eqb Ascii.eqb Bool.eqb negb orb] in Htools.
    destruct (or_else (supports_tools (card_model c)) false);
      [split; reflexivity|discriminate].
  - intros Hne Hnt. apply truthy_true_iff in Hne. rewrite Hne in Htools.
    apply String.eqb_neq in Hnt. rewrite Hnt in Htools.
    unfold tools_matches in Htools. cbn [negb orb] in Htools.
    destruct (or_else (supports_tools (card_model c)) false);
      [discriminate|split; reflexivity].
Qed.

Lemma chips_agree_with_filters_witness :
  let d0 := select_tools "true" (select_purpose "general" initial_dom) in
  exists d1,
    filterAndRender (repeat record_A 11) (Some profile_M) d0 = Normal d1 /\
    List.length (models_list d1) = 10%nat /\
    List.length (models_list (clicks 1 (fresh d0) d1)) = 11%nat /\
    forall c, In c (models_list (clicks 1 (fresh d0) d1)) ->
      purpose_class (card_view c) = "wm-chip purpose-general" /\
      purpose_text (card_view c) = "General assistant" /\
      tools_text (card_view c) = "Tools / function calling" /\
      tools_class (card_view c) = "wm-chip tools-yes".
Proof.
  intros d0.
  destruct (chips_agree_with_filters (repeat record_A 11) (Some profile_M) d0 1)
    as (d1 & H1 & H2); [constructor|].
  exists d1. split; [exact H1|].
  assert (E : d1 = render_result
                     (ranked_of (repeat record_A 11) (Some profile_M) d0) d0).
  { rewrite filterAndRender_result in H1. now injection H1. }
  split; [rewrite E; reflexivity|]. split; [rewrite E; reflexivity|].
  intros c Hc. destruct (H2 c Hc) as (Hp & Ht & _).
  destruct Hp as (Hp1 & Hp2); [discriminate|].
  destruct Ht as (Ht1 & Ht2); [reflexivity|].
  repeat split; assumption.
Defined.

Lemma or_text_not_empty (a : option string) (b : string) :
  b <> "" -> or_text a b <> "".
Proof.
  intros Hb. unfold or_text. destruct a as [s|]; cbn [truthy_opt or_else].
  - destruct (truthy s) eqn:E; [now apply truthy_true_iff|exact Hb].
  - exact Hb.
Qed.

(** X24: the fall-backs of a card.  The name, set as text, is the
    display name, or the model name when the display name is missing or
    empty, so it is empty only if the model name is.  The tagline, set as
    text, is the notes, or the community text when the notes are missing
    or empty, so it is never empty.  The Ollama link is made only for a
    non-empty address.  The string written as markup after the "Runs well
    on" label is "Community to fill in" when the list of recommended
    hardware is missing or empty; what the browser shows for entries that
    contain markup is not described here. *)
Theorem card_fall_backs (c : Card) :
  let v := card_view c in
  let m := card_model c in
  view_tagline v <> "" /\
  (notes m = None \/ notes m = Some "" ->
     view_tagline v =
       "Community suggestion. See models.json for more information.") /\
  (forall t, notes m = Some t -> t <> "" -> view_tagline v = t) /\
  (model_name m <> "" -> view_name v <> "") /\
  (display_name m = None \/ display_name m = Some "" ->
     view_name v = model_name m) /\
  (forall nm, display_name m = Some nm -> nm <> "" -> view_name v = nm) /\
  (forall a, ollama_link v = Some a -> a <> "") /\
  (recommended_for m = None \/ recommended_for m = Some [] ->
     runs_well_on_html v = "Community to fill in").
Proof.
  cbv zeta. unfold card_view.
  cbn [view_tagline runs_well_on_html view_name ollama_link].
  split; [apply or_text_not_empty; discriminate|].
  split; [intros [->| ->]; reflexivity|].
  split.
  { intros t -> Ht. unfold or_text. cbn [truthy_opt or_else].
    apply truthy_true_iff in Ht. now rewrite Ht. }
  split; [intros H; now apply or_text_not_empty|].
  split; [intros [->| ->]; reflexivity|].
  split.
  { intros nm -> Hnm. unfold or_text. cbn [truthy_opt or_else].
    apply truthy_true_iff in Hnm. now rewrite Hnm. }
  split.
  - intros a. destruct (link_ollama (card_model c)) as [s|]; cbn [truthy_opt].
    + destruct (truthy s) eqn:E; [|discriminate].
      intros [= <-]. now apply truthy_true_iff.
    + discriminate.
  - intros [->| ->]; reflexivity.
Qed.

End Cards.
